(** * Rich-text command layer of the Lexical editor

    A shallow embedding of [packages/lexical-rich-text/src/index.js]:
    the two block node classes ([QuoteNode], [HeadingNode]), the editor
    initialisation routine and the command listeners installed by
    [registerRichText], together with the part of the Lexical core
    (node map, selection, command dispatch) those functions call. *)

From Stdlib Require Import ZArith String Ascii.
From stdpp Require Import base option list gmap.

Open Scope Z_scope.
Open Scope string_scope.

(** ** Node keys

    A key is either the fixed key of the root node or a key produced by
    the editor's key counter. *)

Inductive NodeKey : Type :=
  | RootKey
  | GenKey (n : N).

#[global] Instance NodeKey_eq_dec : EqDecision NodeKey.
Proof. solve_decision. Defined.

Definition NodeKey_encode (k : NodeKey) : option N :=
  match k with RootKey => None | GenKey n => Some n end.

Definition NodeKey_decode (o : option N) : NodeKey :=
  match o with None => RootKey | Some n => GenKey n end.

#[global] Instance NodeKey_countable : Countable NodeKey.
Proof.
  refine (inj_countable' NodeKey_encode NodeKey_decode _).
  by intros [].
Defined.

(** ** Nodes *)

Inductive HeadingTagType : Type := h1 | h2 | h3 | h4 | h5.

Inductive Direction : Type := ltr | rtl.

(** The node classes.  [CustomElementNode] stands for an element class
    declared by another package; it carries the answer of its
    [canInsertTab] method. *)
Inductive NodeClass : Type :=
  | RootNode
  | ParagraphNode
  | QuoteNode
  | HeadingNode (__tag : HeadingTagType)
  | CustomElementNode (tab : bool)
  | TextNode
  | LineBreakNode.

Record LexicalNode : Type := mkNode {
  __class : NodeClass;
  __parent : option NodeKey;
  __children : list NodeKey;
  __format : string;
  __indent : Z;
  __dir : option Direction;
  __text : string
}.

Definition set_parent (p : option NodeKey) (n : LexicalNode) : LexicalNode :=
  mkNode (__class n) p (__children n) (__format n) (__indent n) (__dir n) (__text n).

Definition set_children (cs : list NodeKey) (n : LexicalNode) : LexicalNode :=
  mkNode (__class n) (__parent n) cs (__format n) (__indent n) (__dir n) (__text n).

Definition set_format (f : string) (n : LexicalNode) : LexicalNode :=
  mkNode (__class n) (__parent n) (__children n) f (__indent n) (__dir n) (__text n).

Definition set_indent (i : Z) (n : LexicalNode) : LexicalNode :=
  mkNode (__class n) (__parent n) (__children n) (__format n) i (__dir n) (__text n).

Definition set_dir (d : option Direction) (n : LexicalNode) : LexicalNode :=
  mkNode (__class n) (__parent n) (__children n) (__format n) (__indent n) d (__text n).

Definition isElementClass (c : NodeClass) : bool :=
  match c with
  | TextNode | LineBreakNode => false
  | _ => true
  end.

(** ** Selection *)

Inductive PointType : Type := text | element.

Record PointT : Type := mkPoint {
  key : NodeKey;
  offset : Z;
  type : PointType
}.

Inductive Selection : Type :=
  | RangeSelection (anchor focus : PointT)
  | NodeSelection (_nodes : list NodeKey)
  | GridSelection (gridKey : NodeKey) (anchorCellKey focusCellKey : NodeKey).

#[global] Instance PointType_eq_dec : EqDecision PointType.
Proof. solve_decision. Defined.

#[global] Instance PointT_eq_dec : EqDecision PointT.
Proof. solve_decision. Defined.

(** ** Editor state and editor *)

Record EditorState : Type := mkEditorState {
  _nodeMap : gmap NodeKey LexicalNode;
  _selection : option Selection
}.

Definition DataTransfer : Type := list (string * string).

(** What a command carries. *)
Inductive Payload : Type :=
  | PUndefined
  | PBoolean (b : bool)
  | PString (s : string)
  | PKeyboardEvent (shiftKey : bool)
  | PInputEvent (dataTransfer : option DataTransfer) (data : option string)
  | PClipboardEvent (clipboardData : option DataTransfer)
  | PDragEvent
  | PMouseEvent.

(** The calls the rich-text layer makes on the editor, the event, the
    selection and the attributes of a block, in the order they are
    made. *)
Inductive Effect : Type :=
  | EExecCommand (name : string) (payload : Payload)
  | EPreventDefault
  | EUpdate (tag : option string)
  | ESetEditorState (tag : option string)
  | EBlur
  | ESetData (mime data : string)
  | ESelDeleteCharacter (isBackward : bool)
  | ESelDeleteWord (isBackward : bool)
  | ESelDeleteLine (isBackward : bool)
  | ESelInsertText (s : string)
  | ESelRemoveText
  | ESelFormatText (f : string)
  | ESelInsertLineBreak (selectStart : bool)
  | ESelInsertParagraph
  | ESelClear
  | EInsertDataTransfer (d : DataTransfer)
  | EMoveCharacter (isHoldingShift isBackward : bool)
  | ESetIndent (k : NodeKey) (indent : Z)
  | ESetFormat (k : NodeKey) (f : string).

(** The editor: its state, the counter new node keys come from, whether
    [document.activeElement] is the editor's root element, and the record
    of the calls made so far. *)
Record Editor : Type := mkEditor {
  _editorState : EditorState;
  _keyCounter : N;
  _hasFocus : bool;
  _trace : list Effect
}.

Definition with_state (es : EditorState) (e : Editor) : Editor :=
  mkEditor es (_keyCounter e) (_hasFocus e) (_trace e).

Definition with_nodeMap (m : gmap NodeKey LexicalNode) (e : Editor) : Editor :=
  with_state (mkEditorState m (_selection (_editorState e))) e.

Definition with_selection (s : option Selection) (e : Editor) : Editor :=
  with_state (mkEditorState (_nodeMap (_editorState e)) s) e.

Definition nodes (e : Editor) : gmap NodeKey LexicalNode :=
  _nodeMap (_editorState e).

(** ** Computations: state passing with exceptions *)

Inductive Result (A : Type) : Type :=
  | Ok (a : A)
  | Throw (msg : string).
Arguments Ok {A} a.
Arguments Throw {A} msg.

Definition M (A : Type) : Type := Editor -> Result (A * Editor).

Definition ret {A} (a : A) : M A := fun e => Ok (a, e).

Definition bind {A B} (m : M A) (k : A -> M B) : M B :=
  fun e => match m e with
           | Ok (a, e') => k a e'
           | Throw msg => Throw msg
           end.

Definition throw {A} (msg : string) : M A := fun _ => Throw msg.

Definition get : M Editor := fun e => Ok (e, e).

Definition put (e : Editor) : M unit := fun _ => Ok (tt, e).

Notation "x <- m ;; k" := (bind m (fun x => k))
  (at level 20, m at level 99, k at level 200, only parsing).
Notation "m ;;; k" := (bind m (fun _ => k))
  (at level 20, k at level 200, only parsing).

Definition emit (ev : Effect) : M unit :=
  fun e => Ok (tt, mkEditor (_editorState e) (_keyCounter e) (_hasFocus e)
                            (_trace e ++ [ev])).

Definition modifyState (f : EditorState -> EditorState) : M unit :=
  fun e => Ok (tt, with_state (f (_editorState e)) e).

Definition modifyNodes
    (f : gmap NodeKey LexicalNode -> gmap NodeKey LexicalNode) : M unit :=
  fun e => Ok (tt, with_nodeMap (f (nodes e)) e).

Fixpoint forEach {A} (l : list A) (f : A -> M unit) : M unit :=
  match l with
  | [] => ret tt
  | x :: l' => f x ;;; forEach l' f
  end.

(** ** The Lexical core

    Modelled from the spec: the node, selection and editor classes of the
    [lexical] package are imported by the source file and not defined in
    it.  The definitions of this module follow the spec's data model:
    every node but the root has one parent, a child list holds unique
    keys, a node is moved by taking it out of its parent's child list
    first, and the indent, direction and format of a block are plain
    attributes.  Looking up a node that is not in the node map, asking a
    parentless node for its parent and calling an element method on a
    node that is not an element raise an exception. *)
Module Core.

Definition newNode (c : NodeClass) : LexicalNode :=
  mkNode c None [] EmptyString 0 None EmptyString.

(** Modelled from the spec: [$getNodeByKey] reads the node map. *)
Definition getNodeByKey (k : NodeKey) : M (option LexicalNode) :=
  fun e => Ok (nodes e !! k, e).

(** Modelled from the spec: the current attributes of a node; a key
    without a node raises. *)
Definition getLatest (k : NodeKey) : M LexicalNode :=
  fun e => match nodes e !! k with
           | Some n => Ok (n, e)
           | None => Throw "node not found"
           end.

(** Modelled from the spec: the receiver of an [ElementNode] method; a
    text or line-break node has no such method. *)
Definition getElement (k : NodeKey) : M LexicalNode :=
  n <- getLatest k ;;
  if isElementClass (__class n) then ret n
  else throw "TypeError: not an element node".

Definition writeNode (k : NodeKey) (n : LexicalNode) : M unit :=
  modifyNodes (fun m => <[k := n]> m).

(** Modelled from the spec: [$getSelection] and [$getRoot], the ambient
    accessors of the active editor state. *)
Definition getSelection : M (option Selection) :=
  fun e => Ok (_selection (_editorState e), e).

Definition getRoot : M NodeKey :=
  getLatest RootKey ;;; ret RootKey.

(** Modelled from the spec: [Point.getNode] resolves the point's key and
    raises when the node is gone. *)
Definition Point_getNode (p : PointT) : M NodeKey :=
  getLatest (key p) ;;; ret (key p).

(** Modelled from the spec: a Range selection is collapsed when its two
    points agree in key, offset and kind. *)
Definition isCollapsed (anchor focus : PointT) : bool :=
  bool_decide (anchor = focus).

(** Modelled from the spec: the parent link, resolved in the node map;
    [getParentOrThrow] raises when there is none. *)
Definition getParent (k : NodeKey) : M (option NodeKey) :=
  n <- getLatest k ;;
  match __parent n with
  | None => ret None
  | Some p =>
      o <- getNodeByKey p ;;
      ret (match o with Some _ => Some p | None => None end)
  end.

Definition getParentOrThrow (k : NodeKey) : M NodeKey :=
  o <- getParent k ;;
  match o with
  | Some p => ret p
  | None => throw "Expected node to have a parent"
  end.

Definition isElementNode (k : NodeKey) : M bool :=
  n <- getLatest k ;; ret (isElementClass (__class n)).

(** Modelled from the spec: [canInsertTab] is a capability flag of the
    block's class; the classes of this file ([QuoteNode],
    [HeadingNode]) do not set it. *)
Definition canInsertTab (k : NodeKey) : M bool :=
  n <- getElement k ;;
  ret (match __class n with CustomElementNode tab => tab | _ => false end).

(** Modelled from the spec: the indent is an integer attribute of an
    element, read and written as it is. *)
Definition getIndent (k : NodeKey) : M Z :=
  n <- getElement k ;; ret (__indent n).

Definition setIndent (k : NodeKey) (indentLevel : Z) : M unit :=
  n <- getElement k ;;
  emit (ESetIndent k indentLevel) ;;;
  writeNode k (set_indent indentLevel n).

(** Modelled from the spec: format and direction are attributes of an
    element, read and written as they are. *)
Definition setFormat (k : NodeKey) (f : string) : M unit :=
  n <- getElement k ;;
  emit (ESetFormat k f) ;;;
  writeNode k (set_format f n).

Definition getDirection (k : NodeKey) : M (option Direction) :=
  n <- getElement k ;; ret (__dir n).

Definition setDirection (k : NodeKey) (d : option Direction) : M unit :=
  n <- getElement k ;; writeNode k (set_dir d n).

(** Modelled from the spec: [getChildren] gives the child nodes that
    resolve in the node map, in order; [getFirstChild] the first of the
    child list, if it resolves. *)
Definition getChildren (k : NodeKey) : M (list NodeKey) :=
  n <- getElement k ;;
  e <- get ;;
  ret (filter (fun c => is_Some (nodes e !! c)) (__children n)).

Definition getFirstChild (k : NodeKey) : M (option NodeKey) :=
  n <- getElement k ;;
  match __children n with
  | [] => ret None
  | c :: _ =>
      o <- getNodeByKey c ;;
      ret (match o with Some _ => Some c | None => None end)
  end.

(** Modelled from the spec: child lists are arrays; [indexOf] is the
    position of the first occurrence. *)
Fixpoint indexOf (k : NodeKey) (l : list NodeKey) : option nat :=
  match l with
  | [] => None
  | x :: l' => if decide (x = k) then Some O else S <$> indexOf k l'
  end.

(** [splice(i, 0, k)] and [splice(i, 1)]. *)
Definition spliceIn (i : nat) (k : NodeKey) (l : list NodeKey) : list NodeKey :=
  take i l ++ k :: drop i l.

Definition spliceOut (i : nat) (l : list NodeKey) : list NodeKey :=
  take i l ++ drop (S i) l.

(** Modelled from the spec: [$createParagraphNode] makes a detached,
    empty paragraph under the next key of the counter. *)
Definition createParagraphNode : M NodeKey :=
  fun e =>
    let k := GenKey (_keyCounter e) in
    Ok (k, mkEditor
             (mkEditorState (<[k := newNode ParagraphNode]> (nodes e))
                            (_selection (_editorState e)))
             (_keyCounter e + 1)%N (_hasFocus e) (_trace e)).

(** Modelled from the spec: a node leaves the child list of its
    parent before it is placed elsewhere. *)
Definition removeFromParent (k : NodeKey) : M unit :=
  o <- getParent k ;;
  match o with
  | None => ret tt
  | Some p =>
      pn <- getLatest p ;;
      match indexOf k (__children pn) with
      | None => throw "Node is not a child of its parent"
      | Some i => writeNode p (set_children (spliceOut i (__children pn)) pn)
      end
  end.

(** Modelled from the spec: [ElementNode.append] reparents the child
    to the end of the element's child list. *)
Definition append (self child : NodeKey) : M unit :=
  getElement self ;;;
  removeFromParent child ;;;
  c <- getLatest child ;;
  writeNode child (set_parent (Some self) c) ;;;
  sn <- getLatest self ;;
  writeNode self (set_children (__children sn ++ [child]) sn).

(** Modelled from the spec: a removed node leaves its parent's child
    list and loses its parent link; a node without a parent is left as
    it is. *)
Definition removeNode (k : NodeKey) : M unit :=
  o <- getParent k ;;
  match o with
  | None => ret tt
  | Some p =>
      pn <- getLatest p ;;
      match indexOf k (__children pn) with
      | None => throw "Node is not a child of its parent"
      | Some i =>
          writeNode p (set_children (spliceOut i (__children pn)) pn) ;;;
          n <- getLatest k ;;
          writeNode k (set_parent None n)
      end
  end.

(** Modelled from the spec: [LexicalNode.replace] puts the other node
    at the place of this one in the parent's child list and removes
    this one from the tree.  The spec says nothing on the selection
    here; it is left as it is. *)
Definition replace (self replaceWith : NodeKey) : M NodeKey :=
  removeFromParent replaceWith ;;;
  p <- getParentOrThrow self ;;
  pn <- getLatest p ;;
  match indexOf self (__children pn) with
  | None => throw "Node is not a child of its parent"
  | Some i =>
      writeNode p (set_children (spliceIn i replaceWith (__children pn)) pn) ;;;
      w <- getLatest replaceWith ;;
      writeNode replaceWith (set_parent (Some p) w) ;;;
      removeNode self ;;;
      ret replaceWith
  end.

(** Modelled from the spec: [LexicalNode.insertAfter] places the node
    right behind this one in the parent's child list. *)
Definition insertAfter (self nodeToInsert : NodeKey) : M NodeKey :=
  removeFromParent nodeToInsert ;;;
  p <- getParentOrThrow self ;;
  sn <- getLatest self ;;
  w <- getLatest nodeToInsert ;;
  writeNode nodeToInsert (set_parent (__parent sn) w) ;;;
  pn <- getLatest p ;;
  match indexOf self (__children pn) with
  | None => throw "Node is not a child of its parent"
  | Some i =>
      writeNode p (set_children (spliceIn (S i) nodeToInsert (__children pn)) pn) ;;;
      ret nodeToInsert
  end.

(** Modelled from the spec: [ElementNode.select()] without offsets
    makes the selection a collapsed Range behind the last child of the
    element. *)
Definition select (k : NodeKey) : M unit :=
  n <- getElement k ;;
  let childrenCount := Z.of_nat (length (__children n)) in
  let p := mkPoint k childrenCount element in
  fun e => Ok (tt, with_selection (Some (RangeSelection p p)) e).

(** Modelled from the spec: [editor.update(fn, options)] runs the
    callback at once, inside one mutation transaction. *)
Definition update {A} (fn : M A) (tag : option string) : M A :=
  emit (EUpdate tag) ;;; fn.

(** Modelled from the spec: [editor.setEditorState] installs a document
    state; [editor.blur] releases the focus. *)
Definition setEditorState (es : EditorState) (tag : option string) : M unit :=
  emit (ESetEditorState tag) ;;; modifyState (fun _ => es).

Definition blur : M unit := emit EBlur.

(** *** Command listeners

    Modelled from the spec (4.1): the listeners of a command are tried
    in descending priority, in registration order within one priority,
    and the first one that answers [true] ends the dispatch; a command
    without listeners answers [false].  A listener receives the editor's
    [execCommand] to dispatch further commands; [fuel] bounds the nesting
    of such dispatches. *)

Definition CommandListener : Type :=
  (string -> Payload -> M bool) -> Payload -> M bool.

Record Registration : Type := mkRegistration {
  cmd_type : string;
  cmd_listener : CommandListener;
  cmd_priority : nat
}.

Definition registerCommandListener
    (ty : string) (listener : CommandListener) (priority : nat)
    (reg : list Registration) : list Registration :=
  reg ++ [mkRegistration ty listener priority].

Definition listenersAt (reg : list Registration) (ty : string) (priority : nat)
  : list CommandListener :=
  cmd_listener <$>
    filter (fun r => cmd_type r = ty /\ cmd_priority r = priority) reg.

Definition maxPriority (reg : list Registration) : nat :=
  foldr (fun r => Nat.max (cmd_priority r)) 0%nat reg.

Definition listenersFor (reg : list Registration) (ty : string)
  : list CommandListener :=
  flat_map (listenersAt reg ty) (rev (seq 0 (S (maxPriority reg)))).

Fixpoint triggerCommandListeners
    (ls : list CommandListener) (exec : string -> Payload -> M bool)
    (payload : Payload) : M bool :=
  match ls with
  | [] => ret false
  | l :: ls' =>
      handled <- l exec payload ;;
      if handled then ret true else triggerCommandListeners ls' exec payload
  end.

Fixpoint execCommand (fuel : nat) (reg : list Registration)
    (ty : string) (payload : Payload) : M bool :=
  match fuel with
  | O => throw "RangeError: Maximum call stack size exceeded"
  | S fuel' =>
      emit (EExecCommand ty payload) ;;;
      triggerCommandListeners (listenersFor reg ty) (execCommand fuel' reg) payload
  end.

End Core.

(** ** External collaborators

    Modelled from the spec: the mutation methods of a Range selection and
    the helpers of [@lexical/selection] and [@lexical/clipboard] are
    outside this package.  The spec takes them as total operations on the
    document and its selection, so they enter as functions on the editor
    state; each call is also recorded in the editor's trace. *)
Class Collaborators : Type := {
  sel_deleteCharacter : bool -> EditorState -> EditorState;
  sel_deleteWord : bool -> EditorState -> EditorState;
  sel_deleteLine : bool -> EditorState -> EditorState;
  sel_insertText : string -> EditorState -> EditorState;
  sel_removeText : EditorState -> EditorState;
  sel_formatText : string -> EditorState -> EditorState;
  sel_insertLineBreak : bool -> EditorState -> EditorState;
  sel_insertParagraph : EditorState -> EditorState;
  sel_getTextContent : EditorState -> string;
  node_getTextContent : EditorState -> NodeKey -> string;
  insertDataTransferForRichText : DataTransfer -> EditorState -> EditorState;
  getHtmlContent : EditorState -> option string;
  getLexicalContent : EditorState -> option string;
  shouldOverrideDefaultCharacterSelection : EditorState -> bool -> bool;
  moveCharacter : bool -> bool -> EditorState -> EditorState;
  parseEditorState : string -> EditorState
}.

Section RichText.

Context `{Collaborators}.

Import Core.

(** *** Calls on the collaborators *)

Definition call (ev : Effect) (f : EditorState -> EditorState) : M unit :=
  emit ev ;;; modifyState f.

Definition getTextContent (k : NodeKey) : M string :=
  getLatest k ;;;
  fun e => Ok (node_getTextContent (_editorState e) k, e).

Definition clearNodeSelection : M unit :=
  emit ESelClear ;;;
  fun e => Ok (tt, with_selection (Some (NodeSelection [])) e).

(** *** Reading a payload the way the listeners do *)

(** The truth value of a payload used as a boolean. *)
Definition toBoolean (payload : Payload) : bool :=
  match payload with
  | PUndefined => false
  | PBoolean b => b
  | PString s => negb (String.eqb s EmptyString)
  | _ => true
  end.

Definition preventDefault (payload : Payload) : M unit :=
  match payload with
  | PKeyboardEvent _ | PInputEvent _ _ | PClipboardEvent _
  | PDragEvent | PMouseEvent => emit EPreventDefault
  | _ => throw "TypeError: event.preventDefault is not a function"
  end.

Definition shiftKeyOf (payload : Payload) : bool :=
  match payload with
  | PKeyboardEvent shiftKey => shiftKey
  | _ => false
  end.

Definition clipboardDataOf (payload : Payload) : option DataTransfer :=
  match payload with
  | PClipboardEvent d => d
  | _ => None
  end.

(** [s[i]] for a string and a number. *)
Definition charAt (s : string) (i : Z) : option ascii :=
  if (i <? 0)%Z then None else String.get (Z.to_nat i) s.

Definition tab : ascii := "009"%char.

(** *** QuoteNode *)

Definition QuoteNode_insertNewAfter (this : NodeKey) : M NodeKey :=
  newBlock <- createParagraphNode ;;
  direction <- getDirection this ;;
  setDirection newBlock direction ;;;
  insertAfter this newBlock ;;;
  ret newBlock.

Definition QuoteNode_collapseAtStart (this : NodeKey) : M bool :=
  paragraph <- createParagraphNode ;;
  children <- getChildren this ;;
  forEach children (fun child => append paragraph child) ;;;
  replace this paragraph ;;;
  ret true.

(** *** HeadingNode *)

Definition HeadingNode_insertNewAfter (this : NodeKey) : M NodeKey :=
  newElement <- createParagraphNode ;;
  direction <- getDirection this ;;
  setDirection newElement direction ;;;
  insertAfter this newElement ;;;
  ret newElement.

Definition HeadingNode_collapseAtStart (this : NodeKey) : M bool :=
  paragraph <- createParagraphNode ;;
  children <- getChildren this ;;
  forEach children (fun child => append paragraph child) ;;;
  replace this paragraph ;;;
  ret true.

(** *** initializeEditor *)

Inductive InitialEditorStateType : Type :=
  | InitNull
  | InitUndefined
  | InitString (s : string)
  | InitEditorState (es : EditorState)
  | InitFunction (fn : M unit).

Definition options_tag : option string := Some "history-merge".

Definition initializeEditor (initialEditorState : InitialEditorStateType)
  : M unit :=
  match initialEditorState with
  | InitNull => ret tt
  | InitUndefined =>
      update
        (root <- getRoot ;;
         firstChild <- getFirstChild root ;;
         match firstChild with
         | None =>
             paragraph <- createParagraphNode ;;
             append root paragraph ;;;
             selection <- getSelection ;;
             e <- get ;;
             if bool_decide (selection <> None) || _hasFocus e
             then select paragraph
             else ret tt
         | Some _ => ret tt
         end)
        options_tag
  | InitString s =>
      setEditorState (parseEditorState s) options_tag
  | InitEditorState es =>
      setEditorState es options_tag
  | InitFunction fn =>
      update fn options_tag
  end.

(** *** Clipboard *)

Definition onPasteForRichText (event : Payload) : M unit :=
  preventDefault event ;;;
  update
    (selection <- getSelection ;;
     match clipboardDataOf event, selection with
     | Some clipboardData, Some (RangeSelection _ _) =>
         call (EInsertDataTransfer clipboardData)
              (insertDataTransferForRichText clipboardData)
     | _, _ => ret tt
     end)
    None.

Definition onCopyForRichText (event : Payload) : M unit :=
  preventDefault event ;;;
  update
    (selection <- getSelection ;;
     match selection, clipboardDataOf event with
     | Some _, Some _ =>
         e <- get ;;
         match getHtmlContent (_editorState e) with
         | Some htmlString => emit (ESetData "text/html" htmlString)
         | None => ret tt
         end ;;;
         match getLexicalContent (_editorState e) with
         | Some lexicalString =>
             emit (ESetData "application/x-lexical-editor" lexicalString)
         | None => ret tt
         end ;;;
         emit (ESetData "text/plain" (sel_getTextContent (_editorState e)))
     | _, _ => ret tt
     end)
    None.

Definition onCutForRichText (event : Payload) : M unit :=
  onCopyForRichText event ;;;
  update
    (selection <- getSelection ;;
     match selection with
     | Some (RangeSelection _ _) => call ESelRemoveText sel_removeText
     | _ => ret tt
     end)
    None.

(** *** The command listeners of registerRichText *)

(** [event.shiftKey]. *)
Definition shiftKey (payload : Payload) : M bool :=
  match payload with
  | PUndefined => throw "TypeError: cannot read properties of undefined"
  | _ => ret (shiftKeyOf payload)
  end.

(** The block a point lies in: the point's node for an element point,
    the parent of its node for a text point. *)
Definition parentBlockOf (anchor : PointT) : M NodeKey :=
  match type anchor with
  | element => Point_getNode anchor
  | text => node <- Point_getNode anchor ;; getParentOrThrow node
  end.

Definition clickListener : CommandListener := fun execCommand payload =>
  selection <- getSelection ;;
  match selection with
  | Some (NodeSelection _) => clearNodeSelection ;;; ret true
  | _ => ret false
  end.

Definition deleteCharacterListener : CommandListener := fun execCommand payload =>
  selection <- getSelection ;;
  match selection with
  | Some (RangeSelection _ _) =>
      let isBackward := toBoolean payload in
      call (ESelDeleteCharacter isBackward) (sel_deleteCharacter isBackward) ;;;
      ret true
  | _ => ret false
  end.

Definition deleteWordListener : CommandListener := fun execCommand payload =>
  selection <- getSelection ;;
  match selection with
  | Some (RangeSelection _ _) =>
      let isBackward := toBoolean payload in
      call (ESelDeleteWord isBackward) (sel_deleteWord isBackward) ;;;
      ret true
  | _ => ret false
  end.

Definition deleteLineListener : CommandListener := fun execCommand payload =>
  selection <- getSelection ;;
  match selection with
  | Some (RangeSelection _ _) =>
      let isBackward := toBoolean payload in
      call (ESelDeleteLine isBackward) (sel_deleteLine isBackward) ;;;
      ret true
  | _ => ret false
  end.

Definition insertTextListener : CommandListener := fun execCommand payload =>
  selection <- getSelection ;;
  match selection with
  | Some (RangeSelection _ _) =>
      match payload with
      | PString eventOrText =>
          call (ESelInsertText eventOrText) (sel_insertText eventOrText) ;;;
          ret true
      | PInputEvent (Some dataTransfer) _ =>
          call (EInsertDataTransfer dataTransfer)
               (insertDataTransferForRichText dataTransfer) ;;;
          ret true
      | PInputEvent None data =>
          match data with
          | Some d =>
              if String.eqb d EmptyString then ret tt
              else call (ESelInsertText d) (sel_insertText d)
          | None => ret tt
          end ;;;
          ret true
      | PUndefined => throw "TypeError: cannot read properties of undefined"
      | _ => ret true
      end
  | _ => ret false
  end.

Definition removeTextListener : CommandListener := fun execCommand payload =>
  selection <- getSelection ;;
  match selection with
  | Some (RangeSelection _ _) =>
      call ESelRemoveText sel_removeText ;;; ret true
  | _ => ret false
  end.

Definition formatTextListener : CommandListener := fun execCommand payload =>
  selection <- getSelection ;;
  match selection with
  | Some (RangeSelection _ _) =>
      match payload with
      | PString format =>
          call (ESelFormatText format) (sel_formatText format) ;;; ret true
      | _ => throw "TypeError: not a text format"
      end
  | _ => ret false
  end.

Definition formatElementListener : CommandListener := fun execCommand payload =>
  selection <- getSelection ;;
  match selection with
  | Some (RangeSelection anchor _) =>
      match payload with
      | PString format =>
          node <- Point_getNode anchor ;;
          isElement <- isElementNode node ;;
          element <- (if isElement then ret node else getParentOrThrow node) ;;
          setFormat element format ;;;
          ret true
      | _ => throw "TypeError: not an element format"
      end
  | _ => ret false
  end.

Definition insertLineBreakListener : CommandListener := fun execCommand payload =>
  selection <- getSelection ;;
  match selection with
  | Some (RangeSelection _ _) =>
      let selectStart := toBoolean payload in
      call (ESelInsertLineBreak selectStart) (sel_insertLineBreak selectStart) ;;;
      ret true
  | _ => ret false
  end.

Definition insertParagraphListener : CommandListener := fun execCommand payload =>
  selection <- getSelection ;;
  match selection with
  | Some (RangeSelection _ _) =>
      call ESelInsertParagraph sel_insertParagraph ;;; ret true
  | _ => ret false
  end.

Definition indentContentListener : CommandListener := fun execCommand payload =>
  selection <- getSelection ;;
  match selection with
  | Some (RangeSelection anchor _) =>
      parentBlock <- parentBlockOf anchor ;;
      canTab <- canInsertTab parentBlock ;;
      (if canTab then
         execCommand "insertText" (PString (String tab EmptyString)) ;;; ret tt
       else
         indent <- getIndent parentBlock ;;
         if bool_decide (indent <> 10) then
           indent' <- getIndent parentBlock ;;
           setIndent parentBlock (indent' + 1)
         else ret tt) ;;;
      ret true
  | _ => ret false
  end.

Definition outdentContentListener : CommandListener := fun execCommand payload =>
  selection <- getSelection ;;
  match selection with
  | Some (RangeSelection anchor _) =>
      anchorNode <- Point_getNode anchor ;;
      parentBlock <- parentBlockOf anchor ;;
      canTab <- canInsertTab parentBlock ;;
      (if canTab then
         textContent <- getTextContent anchorNode ;;
         let character := charAt textContent (offset anchor - 1) in
         if bool_decide (character = Some tab) then
           execCommand "deleteCharacter" (PBoolean true) ;;; ret tt
         else ret tt
       else
         indent <- getIndent parentBlock ;;
         if bool_decide (indent <> 0) then
           indent' <- getIndent parentBlock ;;
           setIndent parentBlock (indent' - 1)
         else ret tt) ;;;
      ret true
  | _ => ret false
  end.

Definition keyArrowLeftListener : CommandListener := fun execCommand payload =>
  selection <- getSelection ;;
  match selection with
  | Some (RangeSelection _ _) =>
      isHoldingShift <- shiftKey payload ;;
      e <- get ;;
      if shouldOverrideDefaultCharacterSelection (_editorState e) true then
        preventDefault payload ;;;
        call (EMoveCharacter isHoldingShift true)
             (moveCharacter isHoldingShift true) ;;;
        ret true
      else ret false
  | _ => ret false
  end.

Definition keyArrowRightListener : CommandListener := fun execCommand payload =>
  selection <- getSelection ;;
  match selection with
  | Some (RangeSelection _ _) =>
      isHoldingShift <- shiftKey payload ;;
      e <- get ;;
      if shouldOverrideDefaultCharacterSelection (_editorState e) false then
        preventDefault payload ;;;
        call (EMoveCharacter isHoldingShift false)
             (moveCharacter isHoldingShift false) ;;;
        ret true
      else ret false
  | _ => ret false
  end.

Definition keyBackspaceListener : CommandListener := fun execCommand payload =>
  selection <- getSelection ;;
  match selection with
  | Some (RangeSelection anchor focus) =>
      preventDefault payload ;;;
      if isCollapsed anchor focus && bool_decide (offset anchor = 0) then
        element <- parentBlockOf anchor ;;
        indent <- getIndent element ;;
        if bool_decide (indent > 0) then
          execCommand "outdentContent" PUndefined
        else execCommand "deleteCharacter" (PBoolean true)
      else execCommand "deleteCharacter" (PBoolean true)
  | _ => ret false
  end.

Definition keyDeleteListener : CommandListener := fun execCommand payload =>
  selection <- getSelection ;;
  match selection with
  | Some (RangeSelection _ _) =>
      preventDefault payload ;;;
      execCommand "deleteCharacter" (PBoolean false)
  | _ => ret false
  end.

Definition keyEnterListener : CommandListener := fun execCommand payload =>
  selection <- getSelection ;;
  match selection with
  | Some (RangeSelection _ _) =>
      preventDefault payload ;;;
      if shiftKeyOf payload then execCommand "insertLineBreak" PUndefined
      else execCommand "insertParagraph" PUndefined
  | _ => ret false
  end.

Definition keyTabListener : CommandListener := fun execCommand payload =>
  selection <- getSelection ;;
  match selection with
  | Some (RangeSelection _ _) =>
      preventDefault payload ;;;
      execCommand (if shiftKeyOf payload then "outdentContent"
                   else "indentContent") PUndefined
  | _ => ret false
  end.

Definition keyEscapeListener : CommandListener := fun execCommand payload =>
  selection <- getSelection ;;
  match selection with
  | Some (RangeSelection _ _) => blur ;;; ret true
  | _ => ret false
  end.

Definition dropListener : CommandListener := fun execCommand payload =>
  selection <- getSelection ;;
  match selection with
  | Some (RangeSelection _ _) => preventDefault payload ;;; ret true
  | _ => ret false
  end.

Definition dragstartListener : CommandListener := fun execCommand payload =>
  selection <- getSelection ;;
  match selection with
  | Some (RangeSelection _ _) => preventDefault payload ;;; ret true
  | _ => ret false
  end.

Definition copyListener : CommandListener := fun execCommand payload =>
  selection <- getSelection ;;
  match selection with
  | Some (RangeSelection _ _) | Some (GridSelection _ _ _) =>
      onCopyForRichText payload ;;; ret true
  | _ => ret false
  end.

Definition cutListener : CommandListener := fun execCommand payload =>
  selection <- getSelection ;;
  match selection with
  | Some (RangeSelection _ _) | Some (GridSelection _ _ _) =>
      onCutForRichText payload ;;; ret true
  | _ => ret false
  end.

Definition pasteListener : CommandListener := fun execCommand payload =>
  selection <- getSelection ;;
  match selection with
  | Some (RangeSelection _ _) | Some (GridSelection _ _ _) =>
      onPasteForRichText payload ;;; ret true
  | _ => ret false
  end.

(** The listeners in the order [registerRichText] registers them, all
    at priority 0. *)
Definition richTextListeners : list (string * CommandListener) :=
  [ ("click", clickListener);
    ("deleteCharacter", deleteCharacterListener);
    ("deleteWord", deleteWordListener);
    ("deleteLine", deleteLineListener);
    ("insertText", insertTextListener);
    ("removeText", removeTextListener);
    ("formatText", formatTextListener);
    ("formatElement", formatElementListener);
    ("insertLineBreak", insertLineBreakListener);
    ("insertParagraph", insertParagraphListener);
    ("indentContent", indentContentListener);
    ("outdentContent", outdentContentListener);
    ("keyArrowLeft", keyArrowLeftListener);
    ("keyArrowRight", keyArrowRightListener);
    ("keyBackspace", keyBackspaceListener);
    ("keyDelete", keyDeleteListener);
    ("keyEnter", keyEnterListener);
    ("keyTab", keyTabListener);
    ("keyEscape", keyEscapeListener);
    ("drop", dropListener);
    ("dragstart", dragstartListener);
    ("copy", copyListener);
    ("cut", cutListener);
    ("paste", pasteListener) ].

(** The [mergeRegister(...)] expression of [registerRichText]: its
    [registerCommandListener] calls, in order.  The source keeps the
    function that removes the listeners again; here the result is the
    registry the calls leave. *)
Definition mergeRegister (reg : list Registration) : list Registration :=
  foldl (fun r '(ty, listener) => registerCommandListener ty listener 0%nat r)
        reg richTextListeners.

(** [registerRichText]: the listeners are registered first, then the
    editor is initialised.  The result is the editor's registry. *)
Definition registerRichText
    (reg : list Registration) (initialEditorState : InitialEditorStateType)
  : M (list Registration) :=
  let registered := mergeRegister reg in
  initializeEditor initialEditorState ;;;
  ret registered.

(** An editor that holds the rich-text listeners only. *)
Definition richTextRegistry : list Registration := mergeRegister [].

(** A top-level dispatch on such an editor.  No chain of dispatches in
    this file is longer than three. *)
Definition dispatch (ty : string) (payload : Payload) : M bool :=
  execCommand 4 richTextRegistry ty payload.

End RichText.

(** ** Vocabulary of the statements *)

(** [$isRangeSelection]. *)
Definition isRangeSelection (s : option Selection) : bool :=
  match s with
  | Some (RangeSelection _ _) => true
  | _ => false
  end.

(** The block that contains a point, read off the node map: the value
    [Core.getParentOrThrow]/[Point.getNode] compute when they succeed. *)
Definition blockOf (es : EditorState) (p : PointT) : option NodeKey :=
  match _nodeMap es !! key p with
  | None => None
  | Some n =>
      match type p with
      | element => Some (key p)
      | text =>
          match __parent n with
          | None => None
          | Some b => match _nodeMap es !! b with
                      | Some _ => Some b
                      | None => None
                      end
          end
      end
  end.

(** [anchorBlock es anchor blk n]: the anchor lies in block [blk], an
    element node whose attributes are [n]. *)
Definition anchorBlock
    (es : EditorState) (anchor : PointT) (blk : NodeKey) (n : LexicalNode) : Prop :=
  blockOf es anchor = Some blk /\
  _nodeMap es !! blk = Some n /\
  isElementClass (__class n) = true.

Definition canInsertTabOf (n : LexicalNode) : bool :=
  match __class n with CustomElementNode tab => tab | _ => false end.

(** The editor after a run: a new editor state and new trace entries. *)
Definition after (es : EditorState) (evs : list Effect) (e : Editor) : Editor :=
  mkEditor es (_keyCounter e) (_hasFocus e) (_trace e ++ evs).

Definition writeBlock (blk : NodeKey) (n : LexicalNode) (es : EditorState)
  : EditorState :=
  mkEditorState (<[blk := n]> (_nodeMap es)) (_selection es).

(** What a dispatch leaves in the document: the handled flag and the
    editor state, or the exception. *)
Definition outcome (r : Result (bool * Editor)) : Result (bool * EditorState) :=
  match r with
  | Ok (handled, e) => Ok (handled, _editorState e)
  | Throw msg => Throw msg
  end.

(** Counting calls in a trace. *)
Definition isDispatchOf (ty : string) (ev : Effect) : bool :=
  match ev with
  | EExecCommand name _ => String.eqb name ty
  | _ => false
  end.

Definition isCharDeletion (ev : Effect) : bool :=
  match ev with ESelDeleteCharacter _ => true | _ => false end.

Definition isIndentWrite (ev : Effect) : bool :=
  match ev with ESetIndent _ _ => true | _ => false end.

Definition isUpdate (ev : Effect) : bool :=
  match ev with EUpdate _ | ESetEditorState _ => true | _ => false end.

Definition countEvents (f : Effect -> bool) (tr : list Effect) : nat :=
  length (List.filter f tr).

Definition indentOf (es : EditorState) (k : NodeKey) : option Z :=
  __indent <$> _nodeMap es !! k.

(** ** A plain-text instance of the collaborators

    Used to run the listeners on concrete documents: a collapsed text
    caret deletes or inserts characters in its text node; every other
    operation leaves the editor state as it is. *)

Definition spliceText (s : string) (from del : nat) (ins : string) : string :=
  String.substring 0 from s ++ ins ++
  String.substring (from + del) (String.length s - (from + del)) s.

Definition plain_edit (from : Z -> Z) (del : nat) (ins : string) (caret : Z -> Z)
    (es : EditorState) : EditorState :=
  match _selection es with
  | Some (RangeSelection a f) =>
      match _nodeMap es !! key a, type a with
      | Some n, text =>
          if bool_decide (a = f) && (0 <=? from (offset a))%Z then
            let n' := mkNode (__class n) (__parent n) (__children n) (__format n)
                        (__indent n) (__dir n)
                        (spliceText (__text n) (Z.to_nat (from (offset a))) del ins) in
            let p := mkPoint (key a) (caret (offset a)) text in
            mkEditorState (<[key a := n']> (_nodeMap es))
                          (Some (RangeSelection p p))
          else es
      | _, _ => es
      end
  | _ => es
  end.

Definition plain_deleteCharacter (isBackward : bool) : EditorState -> EditorState :=
  if isBackward then plain_edit (fun o => o - 1) 1 EmptyString (fun o => o - 1)
  else plain_edit (fun o => o) 1 EmptyString (fun o => o).

Definition plain_insertText (s : string) : EditorState -> EditorState :=
  plain_edit (fun o => o) 0 s (fun o => o + Z.of_nat (String.length s)).

Definition plain_getTextContent (es : EditorState) (k : NodeKey) : string :=
  match _nodeMap es !! k with
  | Some n =>
      if isElementClass (__class n) then
        String.concat EmptyString
          ((fun c => match _nodeMap es !! c with
                     | Some cn => __text cn
                     | None => EmptyString
                     end) <$> __children n)
      else __text n
  | None => EmptyString
  end.

Definition plainModel : Collaborators := {|
  sel_deleteCharacter := plain_deleteCharacter;
  sel_deleteWord _ es := es;
  sel_deleteLine _ es := es;
  sel_insertText := plain_insertText;
  sel_removeText es := es;
  sel_formatText _ es := es;
  sel_insertLineBreak _ es := es;
  sel_insertParagraph es := es;
  sel_getTextContent _ := EmptyString;
  node_getTextContent := plain_getTextContent;
  insertDataTransferForRichText _ es := es;
  getHtmlContent _ := None;
  getLexicalContent _ := None;
  shouldOverrideDefaultCharacterSelection _ _ := false;
  moveCharacter _ _ es := es;
  parseEditorState _ :=
    mkEditorState {[ RootKey := Core.newNode RootNode ]} None
|}.

(** ** Sample documents *)

(** root > block(indent) > text, caret in the text at [caret]. *)
Definition sampleNodes (cls : NodeClass) (indent : Z) (txt : string)
  : gmap NodeKey LexicalNode :=
  <[RootKey := mkNode RootNode None [GenKey 1] EmptyString 0 None EmptyString]>
  (<[GenKey 1 := mkNode cls (Some RootKey) [GenKey 2] EmptyString indent (Some rtl) EmptyString]>
  (<[GenKey 2 := mkNode TextNode (Some (GenKey 1)) [] EmptyString 0 None txt]> ∅)).

Definition caretAt (caret : Z) : option Selection :=
  let p := mkPoint (GenKey 2) caret text in Some (RangeSelection p p).

Definition sampleEditor (cls : NodeClass) (indent : Z) (txt : string)
    (sel : option Selection) : Editor :=
  mkEditor (mkEditorState (sampleNodes cls indent txt) sel) 3 true [].

(** The block of a sample document. *)
Definition sampleBlock (cls : NodeClass) (indent : Z) : LexicalNode :=
  mkNode cls (Some RootKey) [GenKey 2] EmptyString indent (Some rtl) EmptyString.

(** A paragraph at indent 2 with the caret at its start. *)
Definition indentedParagraph : Editor :=
  sampleEditor ParagraphNode 2 "hello" (caretAt 0).

(** A block that takes literal tabs, at indent 2, caret at its start. *)
Definition indentedCode : Editor :=
  sampleEditor (CustomElementNode true) 2 "code" (caretAt 0).

(** The same block with a tab in front of the caret. *)
Definition codeAfterTab : Editor :=
  sampleEditor (CustomElementNode true) 0 (String "009"%char "x") (caretAt 1).

(** An editor whose root has no children. *)
Definition emptyEditor (sel : option Selection) (focus : bool) : Editor :=
  mkEditor (mkEditorState {[ RootKey := Core.newNode RootNode ]} sel) 1 focus [].

(** A quote or heading under the root with two text children, and a
    paragraph behind it. *)
Definition blockWithTwoChildren (cls : NodeClass) : Editor :=
  mkEditor
    (mkEditorState
       (<[RootKey := mkNode RootNode None [GenKey 1; GenKey 4] EmptyString 0 None EmptyString]>
        (<[GenKey 1 :=
             mkNode cls (Some RootKey) [GenKey 2; GenKey 3] EmptyString 0 (Some rtl) EmptyString]>
        (<[GenKey 2 := mkNode TextNode (Some (GenKey 1)) [] EmptyString 0 None "ab"]>
        (<[GenKey 3 := mkNode TextNode (Some (GenKey 1)) [] EmptyString 0 None "cd"]>
        (<[GenKey 4 := mkNode ParagraphNode (Some RootKey) [] EmptyString 0 None EmptyString]> ∅)))))
       None)
    5 false [].

(** ** The tree invariant of the data model

    Every child of a node names that node as its parent, every node with
    a parent is in that parent's child list, child lists hold no key
    twice, and following parent links never comes back to a node. *)
Record TreeInvariant (m : gmap NodeKey LexicalNode) : Prop := {
  tree_child_parent : forall k n c,
    m !! k = Some n -> c ∈ __children n ->
    exists cn, m !! c = Some cn /\ __parent cn = Some k;
  tree_parent_child : forall k n p,
    m !! k = Some n -> __parent n = Some p ->
    exists pn, m !! p = Some pn /\ k ∈ __children pn;
  tree_nodup : forall k n, m !! k = Some n -> NoDup (__children n);
  tree_acyclic : exists depth : NodeKey -> nat, forall k n p,
    m !! k = Some n -> __parent n = Some p -> (depth p < depth k)%nat
}.

(** The key counter is ahead of every generated key in the node map. *)
Definition keysBelowCounter (e : Editor) : Prop :=
  forall i, is_Some (nodes e !! GenKey i) -> (i < _keyCounter e)%N.

(** The node map while [collapseAtStart] moves the children of [this]
    (attributes [n] in the map [m0] it started from) to the paragraph
    [para]: [done] are under the paragraph, [todo] still under [this]. *)
Definition Moving (m0 : gmap NodeKey LexicalNode) (this para : NodeKey)
    (n : LexicalNode) (done todo : list NodeKey)
    (m : gmap NodeKey LexicalNode) : Prop :=
  m !! this = Some (set_children todo n) /\
  m !! para = Some (set_children done (Core.newNode ParagraphNode)) /\
  (forall c cn, c ∈ done -> m0 !! c = Some cn ->
                m !! c = Some (set_parent (Some para) cn)) /\
  (forall q, q ≠ this -> q ≠ para -> q ∉ done -> m !! q = m0 !! q).

Definition isQuoteOrHeading (c : NodeClass) : bool :=
  match c with QuoteNode | HeadingNode _ => true | _ => false end.

(** The method a quote or heading node answers to. *)
Definition collapseAtStartOf (c : NodeClass) : NodeKey -> M bool :=
  match c with
  | QuoteNode => QuoteNode_collapseAtStart
  | _ => HeadingNode_collapseAtStart
  end.

Definition insertNewAfterOf (c : NodeClass) : NodeKey -> M NodeKey :=
  match c with
  | QuoteNode => QuoteNode_insertNewAfter
  | _ => HeadingNode_insertNewAfter
  end.

(** [count] dispatches of one command in a row. *)
Fixpoint dispatchTimes `{Collaborators} (count : nat) (ty : string)
    (payload : Payload) : M unit :=
  match count with
  | O => ret tt
  | S count' => dispatch ty payload ;;; dispatchTimes count' ty payload
  end.

(** ** The DOM side of the node classes *)

(** Modelled from the spec: an element of the rendering substrate, with
    the tag it was created with and the class names applied to it. *)
Record HTMLElement : Type := mkElement {
  tagName : string;
  classList : list string
}.

(** The part of [config.theme] the two classes read: the class name of
    quotes and, per heading tag, the class name of headings.  A missing
    entry is [None]. *)
Record EditorThemeClasses : Type := mkTheme {
  theme_quote : option string;
  theme_heading : option (HeadingTagType -> option string)
}.

Definition createElement (tag : string) : HTMLElement := mkElement tag [].

(** Modelled from the spec: [addClassNamesToElement] of [@lexical/utils]
    applies the class names that are given and skips the missing ones. *)
Definition addClassNamesToElement
    (element : HTMLElement) (classNames : list (option string)) : HTMLElement :=
  mkElement (tagName element) (classList element ++ omap id classNames).

Definition tagString (tag : HeadingTagType) : string :=
  match tag with
  | h1 => "h1" | h2 => "h2" | h3 => "h3" | h4 => "h4" | h5 => "h5"
  end.

Definition HeadingNode_createDOM (tag : HeadingTagType) (theme : EditorThemeClasses)
  : HTMLElement :=
  let element := createElement (tagString tag) in
  match theme_heading theme with
  | Some classNames => addClassNamesToElement element [classNames tag]
  | None => element
  end.

(** [new HeadingNode(tag)]: a detached, empty node under the next key of
    the counter. *)
Definition createHeadingNode (headingTag : HeadingTagType) : M NodeKey :=
  fun e =>
    let k := GenKey (_keyCounter e) in
    Ok (k, mkEditor
             (mkEditorState (<[k := Core.newNode (HeadingNode headingTag)]> (nodes e))
                            (_selection (_editorState e)))
             (_keyCounter e + 1)%N (_hasFocus e) (_trace e)).

Definition HeadingNode_getTag (n : LexicalNode) : option HeadingTagType :=
  match __class n with HeadingNode tag => Some tag | _ => None end.

(** [toLowerCase] on the letters A to Z.  No character outside them
    lowers to a letter or digit of a heading tag, so the comparisons of
    [convertHeadingElement] see what they see in the source. *)
Definition lowerAscii (c : ascii) : ascii :=
  let n := N_of_ascii c in
  if (65 <=? n)%N && (n <=? 90)%N then ascii_of_N (n + 32) else c.

Fixpoint toLowerCase (s : string) : string :=
  match s with
  | EmptyString => EmptyString
  | String c s' => String (lowerAscii c) (toLowerCase s')
  end.

(** The chain of comparisons of [convertHeadingElement]. *)
Definition headingTagOf (nodeName : string) : option HeadingTagType :=
  if String.eqb nodeName "h1" then Some h1
  else if String.eqb nodeName "h2" then Some h2
  else if String.eqb nodeName "h3" then Some h3
  else if String.eqb nodeName "h4" then Some h4
  else if String.eqb nodeName "h5" then Some h5
  else None.

(** [convertHeadingElement(domNode)], on the [nodeName] of the DOM node;
    the result is the [node] field of the output. *)
Definition convertHeadingElement (domNodeName : string) : M (option NodeKey) :=
  let nodeName := toLowerCase domNodeName in
  match headingTagOf nodeName with
  | Some tag => node <- createHeadingNode tag ;; ret (Some node)
  | None => ret None
  end.

Record DOMConversion : Type := mkDOMConversion {
  conversion : string -> M (option NodeKey);
  priority : nat
}.

(** [HeadingNode.convertDOM()]: per tag name, the conversion offered for
    a DOM node of that name. *)
Definition HeadingNode_convertDOM : list (string * DOMConversion) :=
  [ ("h1", mkDOMConversion convertHeadingElement 0);
    ("h2", mkDOMConversion convertHeadingElement 0);
    ("h3", mkDOMConversion convertHeadingElement 0);
    ("h4", mkDOMConversion convertHeadingElement 0);
    ("h5", mkDOMConversion convertHeadingElement 0) ].

(** ** More vocabulary *)

(** Every node's indent lies within the bounds of the data model. *)
Definition indentBounds (es : EditorState) : Prop :=
  forall k n, _nodeMap es !! k = Some n -> 0 <= __indent n <= 10.

(** What a copy writes to the clipboard, in order. *)
Definition clipboardWrites `{Collaborators} (es : EditorState) : list Effect :=
  match getHtmlContent es with
  | Some htmlString => [ESetData "text/html" htmlString]
  | None => []
  end ++
  match getLexicalContent es with
  | Some lexicalString => [ESetData "application/x-lexical-editor" lexicalString]
  | None => []
  end ++
  [ESetData "text/plain" (sel_getTextContent es)].

(** [$isGridSelection]. *)
Definition isGridSelection (s : option Selection) : bool :=
  match s with
  | Some (GridSelection _ _ _) => true
  | _ => false
  end.

Definition clearedSelection (es : EditorState) : EditorState :=
  mkEditorState (_nodeMap es) (Some (NodeSelection [])).

(** The element a format goes to: the anchor's node if it is an element,
    its parent otherwise. *)
Definition formatTargetOf (es : EditorState) (anchor : PointT) : option NodeKey :=
  match _nodeMap es !! key anchor with
  | None => None
  | Some n =>
      if isElementClass (__class n) then Some (key anchor)
      else match __parent n with
           | None => None
           | Some b => match _nodeMap es !! b with
                       | Some _ => Some b
                       | None => None
                       end
           end
  end.

(** The commands a listener dispatches in turn, read off the
    [editor.execCommand] calls in its body. *)
Definition redispatches (ty : string) : list string :=
  if String.eqb ty "indentContent" then ["insertText"]
  else if String.eqb ty "outdentContent" then ["deleteCharacter"]
  else if String.eqb ty "keyBackspace" then ["outdentContent"; "deleteCharacter"]
  else if String.eqb ty "keyDelete" then ["deleteCharacter"]
  else if String.eqb ty "keyEnter" then ["insertLineBreak"; "insertParagraph"]
  else if String.eqb ty "keyTab" then ["outdentContent"; "indentContent"]
  else [].

(** * Proofs *)

Import Core.
Open Scope list_scope.

(** ** Running a computation step by step *)

Create HintDb lexical.
#[export] Hint Unfold bind ret throw get put emit modifyState modifyNodes
  getNodeByKey getLatest getElement writeNode getSelection getRoot
  Point_getNode getParent getParentOrThrow isElementNode canInsertTab
  getIndent setIndent setFormat getDirection setDirection getChildren
  getFirstChild update setEditorState blur nodes with_nodeMap with_state
  with_selection : lexical.

(** Rewrites with a hypothesis that decides the head of a [match]. *)
Ltac use_hyp :=
  match goal with
  | Hx : ?x = _ |- context [match ?x with _ => _ end] => rewrite Hx
  end.

Ltac step :=
  first
    [ progress autounfold with lexical
    | rewrite lookup_insert_eq
    | rewrite lookup_insert_ne by congruence
    | use_hyp
    | progress simpl ].

Ltac run := repeat step.

(** Case analysis on the innermost undecided [match], dispatches apart. *)
Ltac split_match :=
  match goal with
  | |- context [match ?x with _ => _ end] =>
      lazymatch x with
      | context [match _ with _ => _ end] => fail
      | context [execCommand] => fail
      | _ => destruct x eqn:?
      end
  end.

Lemma nodes_with_nodeMap m e : nodes (with_nodeMap m e) = m.
Proof. done. Qed.

Ltac maps :=
  repeat first
    [ rewrite nodes_with_nodeMap
    | rewrite lookup_insert_eq
    | rewrite lookup_insert_ne by congruence
    | use_hyp
    | progress simpl ].

Lemma after_after es1 evs1 es2 evs2 e :
  after es2 evs2 (after es1 evs1 e) = after es2 (evs1 ++ evs2) e.
Proof. unfold after. simpl. by rewrite <- app_assoc. Qed.

Lemma outcome_rewrap (r : Result (bool * Editor)) :
  outcome (match r with
           | Ok (handled, e') => Ok (handled, e')
           | Throw msg => Throw msg
           end) = outcome r.
Proof. by destruct r as [[]|]. Qed.

(** ** Dispatch on the rich-text registry *)

Section Dispatch.
Context `{Collaborators}.

Arguments execCommand : simpl never.

(** A command with one listener runs that listener after recording
    the dispatch. *)
Lemma execCommand_single fuel reg ty l payload e :
  listenersFor reg ty = [l] ->
  execCommand (S fuel) reg ty payload e =
    match l (execCommand fuel reg) payload
            (after (_editorState e) [EExecCommand ty payload] e) with
    | Ok (handled, e') => Ok (handled, e')
    | Throw msg => Throw msg
    end.
Proof.
  intros Hl. unfold execCommand at 1. fold execCommand.
  unfold bind, emit. rewrite Hl. simpl. unfold bind, after.
  destruct (l _ _ _) as [[[] e']|]; reflexivity.
Qed.

Lemma listeners_deleteCharacter :
  listenersFor richTextRegistry "deleteCharacter" = [deleteCharacterListener].
Proof. vm_compute. reflexivity. Qed.

Lemma listeners_deleteWord :
  listenersFor richTextRegistry "deleteWord" = [deleteWordListener].
Proof. vm_compute. reflexivity. Qed.

Lemma listeners_deleteLine :
  listenersFor richTextRegistry "deleteLine" = [deleteLineListener].
Proof. vm_compute. reflexivity. Qed.

Lemma listeners_insertLineBreak :
  listenersFor richTextRegistry "insertLineBreak" = [insertLineBreakListener].
Proof. vm_compute. reflexivity. Qed.

Lemma listeners_insertText :
  listenersFor richTextRegistry "insertText" = [insertTextListener].
Proof. vm_compute. reflexivity. Qed.

Lemma listeners_indentContent :
  listenersFor richTextRegistry "indentContent" = [indentContentListener].
Proof. vm_compute. reflexivity. Qed.

Lemma listeners_outdentContent :
  listenersFor richTextRegistry "outdentContent" = [outdentContentListener].
Proof. vm_compute. reflexivity. Qed.

Lemma listeners_keyBackspace :
  listenersFor richTextRegistry "keyBackspace" = [keyBackspaceListener].
Proof. vm_compute. reflexivity. Qed.

Lemma listeners_keyTab :
  listenersFor richTextRegistry "keyTab" = [keyTabListener].
Proof. vm_compute. reflexivity. Qed.

Lemma parentBlockOf_ok e anchor blk :
  blockOf (_editorState e) anchor = Some blk ->
  parentBlockOf anchor e = Ok (blk, e).
Proof.
  unfold blockOf, parentBlockOf.
  destruct (_nodeMap (_editorState e) !! key anchor) as [n|] eqn:Hn; [|done].
  destruct (type anchor); run.
  - destruct (__parent n) as [b|]; [|done]. run.
    destruct (_nodeMap (_editorState e) !! b); [|done]. by intros [= ->].
  - by intros [= ->].
Qed.

Lemma exec_deleteCharacter fuel payload e :
  isRangeSelection (_selection (_editorState e)) = true ->
  execCommand (S fuel) richTextRegistry "deleteCharacter" payload e =
    Ok (true,
        after (sel_deleteCharacter (toBoolean payload) (_editorState e))
              [EExecCommand "deleteCharacter" payload;
               ESelDeleteCharacter (toBoolean payload)] e).
Proof.
  intros Hsel.
  rewrite (execCommand_single _ _ _ _ _ _ listeners_deleteCharacter).
  unfold deleteCharacterListener, call, after. run.
  destruct (_selection (_editorState e)) as [[]|]; try done; run.
  by rewrite <- app_assoc.
Qed.

Lemma exec_insertText_string fuel s e :
  isRangeSelection (_selection (_editorState e)) = true ->
  execCommand (S fuel) richTextRegistry "insertText" (PString s) e =
    Ok (true,
        after (sel_insertText s (_editorState e))
              [EExecCommand "insertText" (PString s); ESelInsertText s] e).
Proof.
  intros Hsel.
  rewrite (execCommand_single _ _ _ _ _ _ listeners_insertText).
  unfold insertTextListener, call, after. run.
  destruct (_selection (_editorState e)) as [[]|]; try done; run.
  by rewrite <- app_assoc.
Qed.

Lemma exec_indentContent fuel e anchor focus blk n payload :
  _selection (_editorState e) = Some (RangeSelection anchor focus) ->
  anchorBlock (_editorState e) anchor blk n ->
  execCommand (S (S fuel)) richTextRegistry "indentContent" payload e =
    Ok (true,
        if canInsertTabOf n then
          after (sel_insertText (String tab EmptyString) (_editorState e))
                [EExecCommand "indentContent" payload;
                 EExecCommand "insertText" (PString (String tab EmptyString));
                 ESelInsertText (String tab EmptyString)] e
        else if bool_decide (__indent n = 10) then
          after (_editorState e) [EExecCommand "indentContent" payload] e
        else
          after (writeBlock blk (set_indent (__indent n + 1) n) (_editorState e))
                [EExecCommand "indentContent" payload;
                 ESetIndent blk (__indent n + 1)] e).
Proof.
  intros Hsel (Hblk & Hn & Hel).
  rewrite (execCommand_single _ _ _ _ _ _ listeners_indentContent).
  unfold indentContentListener, canInsertTabOf. run.
  rewrite (parentBlockOf_ok _ _ blk) by done. run.
  destruct (match __class n with CustomElementNode t => t | _ => false end).
  - unfold bind. rewrite exec_insertText_string by (simpl; by rewrite Hsel).
    simpl. by rewrite after_after.
  - run.
    destruct (decide (__indent n = 10)) as [Hi|Hi].
    + rewrite (bool_decide_eq_false_2 (__indent n ≠ 10)) by naive_solver.
      by rewrite bool_decide_eq_true_2.
    + rewrite (bool_decide_eq_true_2 (__indent n ≠ 10)) by done.
      rewrite (bool_decide_eq_false_2 (__indent n = 10)) by done.
      run. unfold after, writeBlock. simpl. by rewrite <- app_assoc.
Qed.

Lemma exec_outdentContent fuel e anchor focus blk n payload :
  _selection (_editorState e) = Some (RangeSelection anchor focus) ->
  anchorBlock (_editorState e) anchor blk n ->
  execCommand (S (S fuel)) richTextRegistry "outdentContent" payload e =
    Ok (true,
        if canInsertTabOf n then
          if bool_decide
               (charAt (node_getTextContent (_editorState e) (key anchor))
                       (offset anchor - 1) = Some tab)
          then
            after (sel_deleteCharacter true (_editorState e))
                  [EExecCommand "outdentContent" payload;
                   EExecCommand "deleteCharacter" (PBoolean true);
                   ESelDeleteCharacter true] e
          else after (_editorState e) [EExecCommand "outdentContent" payload] e
        else if bool_decide (__indent n = 0) then
          after (_editorState e) [EExecCommand "outdentContent" payload] e
        else
          after (writeBlock blk (set_indent (__indent n - 1) n) (_editorState e))
                [EExecCommand "outdentContent" payload;
                 ESetIndent blk (__indent n - 1)] e).
Proof.
  intros Hsel (Hblk & Hn & Hel).
  assert (exists an, _nodeMap (_editorState e) !! key anchor = Some an) as [an Han].
  { unfold blockOf in Hblk.
    destruct (_nodeMap (_editorState e) !! key anchor); [eauto|done]. }
  rewrite (execCommand_single _ _ _ _ _ _ listeners_outdentContent).
  unfold outdentContentListener, getTextContent, canInsertTabOf. run.
  rewrite (parentBlockOf_ok _ _ blk) by done. run.
  destruct (match __class n with CustomElementNode t => t | _ => false end).
  - run. destruct (bool_decide _).
    + unfold bind. rewrite exec_deleteCharacter by (simpl; by rewrite Hsel).
      simpl. by rewrite after_after.
    + done.
  - run.
    destruct (decide (__indent n = 0)) as [Hi|Hi].
    + rewrite (bool_decide_eq_false_2 (__indent n ≠ 0)) by naive_solver.
      by rewrite bool_decide_eq_true_2.
    + rewrite (bool_decide_eq_true_2 (__indent n ≠ 0)) by done.
      rewrite (bool_decide_eq_false_2 (__indent n = 0)) by done.
      run. unfold after, writeBlock. simpl. by rewrite <- app_assoc.
Qed.

(** The trace is never read and fuel beyond the longest chain is never
    used: what a dispatch leaves in the document depends on the editor
    state alone. *)
Lemma exec_outdentContent_outcome fuel1 fuel2 p1 p2 e1 e2 :
  _editorState e1 = _editorState e2 ->
  outcome (execCommand (S (S fuel1)) richTextRegistry "outdentContent" p1 e1) =
  outcome (execCommand (S (S fuel2)) richTextRegistry "outdentContent" p2 e2).
Proof.
  intros Hes.
  rewrite !(execCommand_single _ _ _ _ _ _ listeners_outdentContent).
  unfold outdentContentListener, parentBlockOf, getTextContent, after.
  run. rewrite Hes.
  repeat (split_match; run); try done.
  all: unfold bind;
    rewrite !exec_deleteCharacter
      by (simpl; unfold isRangeSelection; by use_hyp);
    done.
Qed.

Lemma exec_indentContent_outcome fuel1 fuel2 p1 p2 e1 e2 :
  _editorState e1 = _editorState e2 ->
  outcome (execCommand (S (S fuel1)) richTextRegistry "indentContent" p1 e1) =
  outcome (execCommand (S (S fuel2)) richTextRegistry "indentContent" p2 e2).
Proof.
  intros Hes.
  rewrite !(execCommand_single _ _ _ _ _ _ listeners_indentContent).
  unfold indentContentListener, parentBlockOf, after. run. rewrite Hes.
  repeat (split_match; run); try done.
  all: unfold bind;
    rewrite !exec_insertText_string
      by (simpl; unfold isRangeSelection; by use_hyp);
    done.
Qed.

(** A dispatch that only adds to the trace can be repeated at will. *)
Lemma dispatchTimes_noop (P : EditorState -> Prop) ty payload :
  (forall e, P (_editorState e) ->
     exists evs, dispatch ty payload e = Ok (true, after (_editorState e) evs e)) ->
  forall count e, P (_editorState e) ->
    exists e', dispatchTimes count ty payload e = Ok (tt, e') /\
               _editorState e' = _editorState e.
Proof.
  intros Hone count. induction count as [|count IH]; intros e HP.
  - by exists e.
  - destruct (Hone e HP) as [evs Hrun].
    destruct (IH (after (_editorState e) evs e) HP) as (e' & Hrest & Hes).
    exists e'. simpl. unfold bind at 1. rewrite Hrun. by split.
Qed.

(** ** The claims on the command listeners *)

(** C1 (as amended).  [keyBackspace] on a Range selection whose anchor
    lies in block [blk]: when the selection is collapsed at offset 0 and
    the block's indent is positive, [outdentContent] is dispatched once
    and no character is deleted; the indent goes down by one if the
    block does not take literal tabs and the document stays as it is if
    it does.  In every other case the listener makes exactly one
    backward character deletion and writes no indent. *)
Theorem keyBackspace_outdents_or_deletes e anchor focus blk n shift :
  _selection (_editorState e) = Some (RangeSelection anchor focus) ->
  anchorBlock (_editorState e) anchor blk n ->
  dispatch "keyBackspace" (PKeyboardEvent shift) e =
    Ok (true,
        if isCollapsed anchor focus && bool_decide (offset anchor = 0)
           && bool_decide (__indent n > 0)
        then
          if canInsertTabOf n then
            after (_editorState e)
                  [EExecCommand "keyBackspace" (PKeyboardEvent shift);
                   EPreventDefault;
                   EExecCommand "outdentContent" PUndefined] e
          else
            after (writeBlock blk (set_indent (__indent n - 1) n) (_editorState e))
                  [EExecCommand "keyBackspace" (PKeyboardEvent shift);
                   EPreventDefault;
                   EExecCommand "outdentContent" PUndefined;
                   ESetIndent blk (__indent n - 1)] e
        else
          after (sel_deleteCharacter true (_editorState e))
                [EExecCommand "keyBackspace" (PKeyboardEvent shift);
                   EPreventDefault;
                 EExecCommand "deleteCharacter" (PBoolean true);
                 ESelDeleteCharacter true] e).
Proof.
  intros Hsel Hab. pose proof Hab as (Hblk & Hn & Hel).
  unfold dispatch.
  rewrite (execCommand_single _ _ _ _ _ _ listeners_keyBackspace).
  unfold keyBackspaceListener, preventDefault. run.
  destruct (isCollapsed anchor focus && bool_decide (offset anchor = 0)) eqn:Hc.
  - rewrite (parentBlockOf_ok _ _ blk) by done. run.
    destruct (bool_decide (__indent n > 0)) eqn:Hi; simpl.
    + rewrite (exec_outdentContent _ _ anchor focus blk n) by done.
      apply andb_true_iff in Hc as [_ Ho%bool_decide_eq_true].
      apply bool_decide_eq_true in Hi.
      rewrite Ho. simpl.
      rewrite (bool_decide_eq_false_2 (__indent n = 0)) by lia.
      destruct (canInsertTabOf n); unfold after; simpl; by rewrite <- !app_assoc.
    + rewrite exec_deleteCharacter by (simpl; by rewrite Hsel).
      unfold after; simpl; by rewrite <- !app_assoc.
  - simpl. rewrite exec_deleteCharacter by (simpl; by rewrite Hsel).
    unfold after; simpl; by rewrite <- !app_assoc.
Qed.

(** C2 (as amended).  [deleteCharacter] with a backward flag on a Range
    selection always hands over to the selection's backward
    character deletion and answers [true]; it dispatches no other
    command and writes no indent, wherever the caret is. *)
Theorem deleteCharacter_backward_deletes e :
  isRangeSelection (_selection (_editorState e)) = true ->
  dispatch "deleteCharacter" (PBoolean true) e =
    Ok (true,
        after (sel_deleteCharacter true (_editorState e))
              [EExecCommand "deleteCharacter" (PBoolean true);
               ESelDeleteCharacter true] e).
Proof. intros Hsel. unfold dispatch. by rewrite exec_deleteCharacter. Qed.

(** C3.  [indentContent] on a Range selection whose anchor lies in block
    [blk]: a block that takes literal tabs gets a tab through a
    dispatch of [insertText] and no indent is written; any other block
    has its indent raised by one, unless the indent is 10, in which
    case nothing changes, however often the command is repeated. *)
Theorem indentContent_tab_or_indent e anchor focus blk n payload :
  _selection (_editorState e) = Some (RangeSelection anchor focus) ->
  anchorBlock (_editorState e) anchor blk n ->
  dispatch "indentContent" payload e =
    Ok (true,
        if canInsertTabOf n then
          after (sel_insertText (String tab EmptyString) (_editorState e))
                [EExecCommand "indentContent" payload;
                 EExecCommand "insertText" (PString (String tab EmptyString));
                 ESelInsertText (String tab EmptyString)] e
        else if bool_decide (__indent n = 10) then
          after (_editorState e) [EExecCommand "indentContent" payload] e
        else
          after (writeBlock blk (set_indent (__indent n + 1) n) (_editorState e))
                [EExecCommand "indentContent" payload;
                 ESetIndent blk (__indent n + 1)] e) /\
  (canInsertTabOf n = false -> __indent n = 10 ->
   forall count, exists e',
     dispatchTimes count "indentContent" payload e = Ok (tt, e') /\
     _editorState e' = _editorState e).
Proof.
  intros Hsel Hab. split.
  - unfold dispatch. by apply (exec_indentContent _ _ anchor focus).
  - intros Htab Hten count.
    apply (dispatchTimes_noop
             (fun es => _selection es = Some (RangeSelection anchor focus) /\
                        anchorBlock es anchor blk n)); [|done].
    intros e0 [Hsel0 Hab0]. eexists. unfold dispatch.
    rewrite (exec_indentContent _ _ anchor focus blk n) by done.
    rewrite Htab. by rewrite bool_decide_eq_true_2.
Qed.

(** C4 (as amended).  [outdentContent] on a Range selection whose anchor
    lies in block [blk]: in a block that takes literal tabs, a tab at
    index [offset - 1] of the anchor node's text is deleted through a
    dispatch of [deleteCharacter] (backward), and without such a tab
    nothing changes, the indent included; in any other block the indent
    is lowered by one, unless it is 0, in which case nothing changes,
    however often the command is repeated. *)
Theorem outdentContent_tab_or_outdent e anchor focus blk n payload :
  _selection (_editorState e) = Some (RangeSelection anchor focus) ->
  anchorBlock (_editorState e) anchor blk n ->
  dispatch "outdentContent" payload e =
    Ok (true,
        if canInsertTabOf n then
          if bool_decide
               (charAt (node_getTextContent (_editorState e) (key anchor))
                       (offset anchor - 1) = Some tab)
          then
            after (sel_deleteCharacter true (_editorState e))
                  [EExecCommand "outdentContent" payload;
                   EExecCommand "deleteCharacter" (PBoolean true);
                   ESelDeleteCharacter true] e
          else after (_editorState e) [EExecCommand "outdentContent" payload] e
        else if bool_decide (__indent n = 0) then
          after (_editorState e) [EExecCommand "outdentContent" payload] e
        else
          after (writeBlock blk (set_indent (__indent n - 1) n) (_editorState e))
                [EExecCommand "outdentContent" payload;
                 ESetIndent blk (__indent n - 1)] e) /\
  (canInsertTabOf n = false -> __indent n = 0 ->
   forall count, exists e',
     dispatchTimes count "outdentContent" payload e = Ok (tt, e') /\
     _editorState e' = _editorState e).
Proof.
  intros Hsel Hab. split.
  - unfold dispatch. by apply (exec_outdentContent _ _ anchor focus).
  - intros Htab Hzero count.
    apply (dispatchTimes_noop
             (fun es => _selection es = Some (RangeSelection anchor focus) /\
                        anchorBlock es anchor blk n)); [|done].
    intros e0 [Hsel0 Hab0]. eexists. unfold dispatch.
    rewrite (exec_outdentContent _ _ anchor focus blk n) by done.
    rewrite Htab. by rewrite bool_decide_eq_true_2.
Qed.

(** C5.  On a Range selection, [keyTab] leaves the same handled flag and
    the same editor state (or raises the same exception) as a direct
    dispatch of [outdentContent] when shift is held, and of
    [indentContent] when it is not, whatever payload the direct dispatch
    carries. *)
Theorem keyTab_same_as_direct_dispatch e shift payload :
  isRangeSelection (_selection (_editorState e)) = true ->
  outcome (dispatch "keyTab" (PKeyboardEvent shift) e) =
  outcome (dispatch (if shift then "outdentContent" else "indentContent")
                    payload e).
Proof.
  intros Hsel. unfold dispatch.
  rewrite (execCommand_single _ _ _ _ _ _ listeners_keyTab).
  unfold keyTabListener, preventDefault. run.
  destruct (_selection (_editorState e)) as [[]|]; try done. run.
  rewrite outcome_rewrap.
  destruct shift.
  - by apply exec_outdentContent_outcome.
  - by apply exec_indentContent_outcome.
Qed.

(** C6.  [deleteCharacter], [deleteWord], [deleteLine] and
    [insertLineBreak] with a boolean payload answer [false] on a
    selection that is not a Range selection, and leave the editor as it
    was but for the record of the dispatch. *)
Theorem boolean_commands_decline_without_range e ty b :
  ty ∈ ["deleteCharacter"; "deleteWord"; "deleteLine"; "insertLineBreak"] ->
  isRangeSelection (_selection (_editorState e)) = false ->
  dispatch ty (PBoolean b) e =
    Ok (false, after (_editorState e) [EExecCommand ty (PBoolean b)] e).
Proof.
  intros Hty Hsel. unfold dispatch.
  repeat (apply elem_of_cons in Hty as [->|Hty]);
    [| | | |by apply elem_of_nil in Hty].
  - rewrite (execCommand_single _ _ _ _ _ _ listeners_deleteCharacter).
    unfold deleteCharacterListener. run.
    by destruct (_selection (_editorState e)) as [[]|].
  - rewrite (execCommand_single _ _ _ _ _ _ listeners_deleteWord).
    unfold deleteWordListener. run.
    by destruct (_selection (_editorState e)) as [[]|].
  - rewrite (execCommand_single _ _ _ _ _ _ listeners_deleteLine).
    unfold deleteLineListener. run.
    by destruct (_selection (_editorState e)) as [[]|].
  - rewrite (execCommand_single _ _ _ _ _ _ listeners_insertLineBreak).
    unfold insertLineBreakListener. run.
    by destruct (_selection (_editorState e)) as [[]|].
Qed.

End Dispatch.

(** ** The tree operations of the core *)

Section Tree.

Lemma indexOf_app (k : NodeKey) (l1 l2 : list NodeKey) :
  k ∉ l1 -> indexOf k (l1 ++ k :: l2) = Some (length l1).
Proof.
  induction l1 as [|x l1 IH]; simpl; intros Hk.
  - by rewrite decide_True.
  - apply not_elem_of_cons in Hk as [Hx Hk].
    rewrite decide_False by done. by rewrite IH.
Qed.

Lemma first_occurrence (k : NodeKey) (l : list NodeKey) :
  k ∈ l -> exists l1 l2, l = l1 ++ k :: l2 /\ k ∉ l1.
Proof.
  induction l as [|x l IH]; intros Hk; [by apply elem_of_nil in Hk|].
  destruct (decide (x = k)) as [->|Hx].
  - exists [], l. split; [done|]. apply not_elem_of_nil.
  - apply elem_of_cons in Hk as [->|Hk]; [done|].
    destruct (IH Hk) as (l1 & l2 & -> & Hl1).
    exists (x :: l1), l2. split; [done|].
    apply not_elem_of_cons. split; [congruence|done].
Qed.

Lemma spliceOut_app (k : NodeKey) l1 l2 :
  spliceOut (length l1) (l1 ++ k :: l2) = l1 ++ l2.
Proof.
  unfold spliceOut. induction l1 as [|x l1 IH]; simpl; [done|].
  by rewrite IH.
Qed.

Lemma spliceIn_app (w k : NodeKey) l1 l2 :
  spliceIn (length l1) w (l1 ++ k :: l2) = l1 ++ w :: k :: l2.
Proof. unfold spliceIn. by rewrite take_app_length, drop_app_length. Qed.

Lemma spliceIn_after (w k : NodeKey) l1 l2 :
  spliceIn (S (length l1)) w (l1 ++ k :: l2) = l1 ++ k :: w :: l2.
Proof.
  unfold spliceIn. induction l1 as [|x l1 IH]; simpl.
  - by destruct l2.
  - by rewrite IH.
Qed.

Lemma filter_resolving (m : gmap NodeKey LexicalNode) (l : list NodeKey) :
  (forall c, c ∈ l -> is_Some (m !! c)) ->
  filter (fun c => is_Some (m !! c)) l = l.
Proof.
  induction l as [|x l IH]; intros Hl; [done|].
  rewrite filter_cons_True by (apply Hl; left).
  f_equal. apply IH. intros c Hc. apply Hl. by right.
Qed.

(** A detached node is left where it is by [removeFromParent]. *)
Lemma removeFromParent_detached e k n :
  nodes e !! k = Some n -> __parent n = None ->
  removeFromParent k e = Ok (tt, e).
Proof.
  intros Hk Hp. unfold removeFromParent. revert Hk. run. intros Hk. by run.
Qed.

Lemma removeFromParent_attached e k n p pn l1 l2 :
  nodes e !! k = Some n -> __parent n = Some p ->
  nodes e !! p = Some pn -> __children pn = l1 ++ k :: l2 -> k ∉ l1 ->
  removeFromParent k e =
    Ok (tt, with_nodeMap (<[p := set_children (l1 ++ l2) pn]> (nodes e)) e).
Proof.
  intros Hk Hp Hpn Hl Hl1. unfold removeFromParent. revert Hk Hpn. run.
  intros Hk Hpn. run. rewrite Hl, indexOf_app by done. run.
  by rewrite spliceOut_app.
Qed.

Lemma append_moves e self sn child cn old on l1 l2 :
  nodes e !! self = Some sn -> isElementClass (__class sn) = true ->
  nodes e !! child = Some cn -> __parent cn = Some old ->
  nodes e !! old = Some on -> __children on = l1 ++ child :: l2 -> child ∉ l1 ->
  old ≠ self -> child ≠ self -> child ≠ old ->
  append self child e =
    Ok (tt, with_nodeMap
              (<[self := set_children (__children sn ++ [child]) sn]>
               (<[child := set_parent (Some self) cn]>
                (<[old := set_children (l1 ++ l2) on]> (nodes e)))) e).
Proof.
  intros Hs Hel Hc Hp Ho Hl Hl1 Hos Hcs Hco. unfold append.
  unfold bind at 1. unfold getElement, getLatest, bind.
  rewrite Hs. simpl. rewrite Hel. simpl.
  rewrite (removeFromParent_attached _ _ _ _ _ _ _ Hc Hp Ho Hl Hl1).
  unfold writeNode, modifyNodes, ret. simpl.
  by maps.
Qed.

Lemma replace_swaps e self n p pn l1 l2 w wn :
  nodes e !! self = Some n -> __parent n = Some p ->
  nodes e !! p = Some pn -> __children pn = l1 ++ self :: l2 -> self ∉ l1 ->
  nodes e !! w = Some wn -> __parent wn = None ->
  w ≠ self -> w ≠ p -> p ≠ self ->
  replace self w e =
    Ok (w, with_nodeMap
             (<[self := set_parent None n]>
              (<[p := set_children (l1 ++ w :: l2) pn]>
               (<[w := set_parent (Some p) wn]>
                (<[p := set_children (l1 ++ w :: self :: l2) pn]> (nodes e)))))
             e).
Proof.
  intros Hs Hsp Hp Hl Hl1 Hw Hwp Hws Hwpne Hps. unfold replace.
  unfold bind at 1. rewrite (removeFromParent_detached _ _ _ Hw Hwp).
  unfold removeNode. revert Hs Hp Hw. run. intros Hs Hp Hw. run.
  rewrite Hl, indexOf_app by done. rewrite spliceIn_app. maps.
  replace (l1 ++ w :: self :: l2) with ((l1 ++ [w]) ++ self :: l2)
    by (by rewrite <- app_assoc).
  rewrite indexOf_app
    by (rewrite not_elem_of_app, list_elem_of_singleton; split; congruence).
  rewrite spliceOut_app. maps. by rewrite <- app_assoc.
Qed.

Lemma insertAfter_inserts e self n p pn l1 l2 w wn :
  nodes e !! self = Some n -> __parent n = Some p ->
  nodes e !! p = Some pn -> __children pn = l1 ++ self :: l2 -> self ∉ l1 ->
  nodes e !! w = Some wn -> __parent wn = None ->
  w ≠ self -> w ≠ p ->
  insertAfter self w e =
    Ok (w, with_nodeMap
             (<[p := set_children (l1 ++ self :: w :: l2) pn]>
              (<[w := set_parent (Some p) wn]> (nodes e))) e).
Proof.
  intros Hs Hsp Hp Hl Hl1 Hw Hwp Hws Hwpne. unfold insertAfter.
  unfold bind at 1. rewrite (removeFromParent_detached _ _ _ Hw Hwp).
  revert Hs Hp Hw. run. intros Hs Hp Hw. run. maps.
  rewrite Hl, indexOf_app by done. rewrite spliceIn_after. simpl.
  by rewrite Hsp.
Qed.

(** *** Consequences of the tree invariant *)

Lemma attached_split (m : gmap NodeKey LexicalNode) this n p :
  TreeInvariant m -> m !! this = Some n -> __parent n = Some p ->
  exists pn l1 l2,
    m !! p = Some pn /\ __children pn = l1 ++ this :: l2 /\
    (this ∉ l1) /\ (this ∉ l2).
Proof.
  intros Hinv Hn Hp.
  destruct (tree_parent_child _ Hinv _ _ _ Hn Hp) as (pn & Hpn & Hin).
  destruct (first_occurrence _ _ Hin) as (l1 & l2 & Hl & Hl1).
  exists pn, l1, l2. repeat split; try done.
  pose proof (tree_nodup _ Hinv _ _ Hpn) as Hnd. rewrite Hl in Hnd.
  apply NoDup_app in Hnd as (_ & _ & Hnd).
  by apply NoDup_cons in Hnd as [? _].
Qed.

Lemma tree_no_loops (m : gmap NodeKey LexicalNode) this n p :
  TreeInvariant m -> m !! this = Some n -> __parent n = Some p ->
  p ≠ this /\ (this ∉ __children n) /\ (p ∉ __children n).
Proof.
  intros Hinv Hn Hp. destruct (tree_acyclic _ Hinv) as [depth Hd].
  pose proof (Hd _ _ _ Hn Hp) as Hlt.
  split; [intros ->; lia|]. split.
  - intros Hin.
    destruct (tree_child_parent _ Hinv _ _ _ Hn Hin) as (cn & Hcn & Hcp).
    assert (cn = n) as -> by congruence.
    assert (p = this) as -> by congruence. lia.
  - intros Hin.
    destruct (tree_child_parent _ Hinv _ _ _ Hn Hin) as (cn & Hcn & Hcp).
    pose proof (Hd _ _ _ Hcn Hcp). lia.
Qed.

Lemma fresh_key e :
  keysBelowCounter e -> nodes e !! GenKey (_keyCounter e) = None.
Proof.
  intros Hk. destruct (nodes e !! GenKey (_keyCounter e)) eqn:Hl; [|done].
  assert (_keyCounter e < _keyCounter e)%N by (apply Hk; by rewrite Hl).
  lia.
Qed.

(** *** The loop of collapseAtStart *)

Section Collapse.
Variables (m0 : gmap NodeKey LexicalNode) (this para : NodeKey)
          (n : LexicalNode).
Hypothesis Hthis : m0 !! this = Some n.
Hypothesis Hpara : m0 !! para = None.
Hypothesis Hkids : forall c, c ∈ __children n ->
  exists cn, m0 !! c = Some cn /\ __parent cn = Some this.
Hypothesis Hnodup : NoDup (__children n).
Hypothesis Hself : this ∉ __children n.

Lemma forEach_append todo : forall done e,
  __children n = done ++ todo ->
  Moving m0 this para n done todo (nodes e) ->
  exists m', forEach todo (fun child => append para child) e
               = Ok (tt, with_nodeMap m' e) /\
             Moving m0 this para n (done ++ todo) [] m'.
Proof.
  induction todo as [|c todo IH]; intros done e Hcs Hm.
  - exists (nodes e). rewrite app_nil_r. split; [by destruct e as [[]]|done].
  - destruct Hm as (Mthis & Mpara & Mdone & Mrest).
    assert (c ∈ __children n) as Hc by (rewrite Hcs; set_solver).
    destruct (Hkids c Hc) as (cn & Hcn & Hcp).
    assert ((c ∉ done) /\ (c ∉ todo)) as [Hcd Hct].
    { rewrite Hcs in Hnodup. apply NoDup_app in Hnodup as (_ & Hd & Ht).
      apply NoDup_cons in Ht as [??]. split; [|done].
      intros Hin. apply (Hd c Hin). left. }
    assert (c ≠ this) as Hct' by (intros ->; done).
    assert (c ≠ para) as Hcp' by (intros ->; congruence).
    assert (this ≠ para) as Htp by (intros ->; congruence).
    simpl. unfold bind at 1.
    rewrite (append_moves e para (set_children done (newNode ParagraphNode))
               c cn this (set_children (c :: todo) n) [] todo); simpl;
      try done; try congruence.
    2:{ by rewrite Mrest. }
    2:{ apply not_elem_of_nil. }
    edestruct (IH (done ++ [c])) as (m' & Hrun & Hm').
    { by rewrite <- app_assoc. }
    2:{ exists m'. rewrite <- app_assoc in Hm'. split; [|exact Hm'].
        by rewrite Hrun. }
    rewrite nodes_with_nodeMap. split; [|split; [|split]].
    + by maps.
    + by maps.
    + intros c' cn' Hc' Hcn'. apply elem_of_app in Hc' as [Hc'|Hc'].
      * assert (c' ≠ c) by (intros ->; done).
        assert (c' ≠ this).
        { intros ->. apply Hself. rewrite Hcs. set_solver. }
        assert (c' ≠ para) by (intros ->; congruence).
        maps. by apply Mdone.
      * apply list_elem_of_singleton in Hc' as ->.
        assert (cn' = cn) as -> by congruence. by maps.
    + intros q Hq1 Hq2 Hq3. apply not_elem_of_app in Hq3 as [Hq3 Hq4].
      assert (q ≠ c) by (intros ->; apply Hq4; left).
      maps. by apply Mrest.
Qed.
End Collapse.

(** ** The claims on the node classes *)

(** C7.  In a well-formed tree, [collapseAtStart] on a quote or heading
    [this] with parent [p] answers [true] and leaves a fresh paragraph
    at the place of [this] in [p]'s child list, holding the children of
    [this] in their order, each of them now naming the paragraph as its
    parent; [this] has no parent and no children left and is in no
    child list; all other nodes and the selection are as before. *)
Theorem collapseAtStart_moves_children e this n p :
  TreeInvariant (nodes e) -> keysBelowCounter e ->
  nodes e !! this = Some n -> isQuoteOrHeading (__class n) = true ->
  __parent n = Some p ->
  let para := GenKey (_keyCounter e) in
  nodes e !! para = None /\
  exists pn l1 l2 e',
    collapseAtStartOf (__class n) this e = Ok (true, e') /\
    nodes e !! p = Some pn /\ __children pn = l1 ++ this :: l2 /\
    nodes e' !! para =
      Some (mkNode ParagraphNode (Some p) (__children n) EmptyString 0 None EmptyString) /\
    nodes e' !! p = Some (set_children (l1 ++ para :: l2) pn) /\
    nodes e' !! this = Some (set_parent None (set_children [] n)) /\
    (forall c cn, c ∈ __children n -> nodes e !! c = Some cn ->
                  nodes e' !! c = Some (set_parent (Some para) cn)) /\
    (forall q, q ≠ this -> q ≠ para -> q ≠ p -> q ∉ __children n ->
               nodes e' !! q = nodes e !! q) /\
    (forall q qn, nodes e' !! q = Some qn -> this ∉ __children qn) /\
    _selection (_editorState e') = _selection (_editorState e).
Proof.
  intros Hinv Hkeys Hn Hcls Hp.
  pose proof (fresh_key _ Hkeys) as Hfresh.
  simpl. remember (GenKey (_keyCounter e)) as para eqn:Hpara. split; [done|].
  destruct (attached_split _ _ _ _ Hinv Hn Hp)
    as (pn & l1 & l2 & Hpn & Hl & Hl1 & Hl2).
  destruct (tree_no_loops _ _ _ _ Hinv Hn Hp) as (Hpt & Htc & Hpc).
  assert (para ≠ this) as Hpat by congruence.
  assert (para ≠ p) as Hpap by congruence.
  assert (isElementClass (__class n) = true) as Hel by (by destruct (__class n)).
  assert (forall c, c ∈ __children n ->
            exists cn, nodes e !! c = Some cn /\ __parent cn = Some this) as Hkids.
  { intros c Hc. exact (tree_child_parent _ Hinv _ _ _ Hn Hc). }
  assert (para ∉ __children n) as Hpac.
  { intros Hin. destruct (Hkids _ Hin) as (cn & Hcn & _). congruence. }
  pose proof (tree_nodup _ Hinv _ _ Hn) as Hnd.
  exists pn, l1, l2.
  set (e1 := mkEditor
               (mkEditorState (<[para := newNode ParagraphNode]> (nodes e))
                              (_selection (_editorState e)))
               (_keyCounter e + 1)%N (_hasFocus e) (_trace e)).
  assert (Moving (nodes e) this para n [] (__children n) (nodes e1)) as Hstart.
  { unfold Moving, e1, nodes. simpl. split; [|split; [|split]].
    - rewrite lookup_insert_ne by done. unfold nodes in Hn. rewrite Hn.
      by destruct n.
    - by rewrite lookup_insert_eq.
    - intros c cn Hc. by apply elem_of_nil in Hc.
    - intros q _ Hq _. by rewrite lookup_insert_ne. }
  destruct (forEach_append (nodes e) this para n Hn Hfresh Hkids Hnd Htc
              (__children n) [] e1 eq_refl Hstart) as (m' & Hloop & Hm').
  simpl in Hm'. destruct Hm' as (Mthis & Mpara & Mkids & Mrest).
  assert (m' !! p = Some pn) as Mp by (by rewrite Mrest).
  assert (forall f,
            f = QuoteNode_collapseAtStart \/ f = HeadingNode_collapseAtStart ->
            f this e =
              Ok (true, with_nodeMap
                (<[this := set_parent None (set_children [] n)]>
                 (<[p := set_children (l1 ++ para :: l2) pn]>
                  (<[para := set_parent (Some p)
                               (set_children (__children n) (newNode ParagraphNode))]>
                   (<[p := set_children (l1 ++ para :: this :: l2) pn]> m'))))
                e1)) as Hrun.
  { intros f Hf.
    assert (f this e =
      (paragraph <- createParagraphNode ;;
       children <- getChildren this ;;
       forEach children (fun child => append paragraph child) ;;;
       replace this paragraph ;;;
       ret true) e) as -> by (by destruct Hf as [-> | ->]).
    unfold bind at 1. unfold createParagraphNode. simpl. rewrite <- Hpara.
    fold e1. unfold bind at 1.
    assert (getChildren this e1 = Ok (__children n, e1)) as ->.
    { unfold getChildren, getElement, getLatest, bind, ret, get, e1, nodes.
      simpl. rewrite lookup_insert_ne by done. unfold nodes in Hn.
      rewrite Hn. simpl. rewrite Hel. simpl.
      rewrite filter_resolving; [done|].
      intros c Hc. destruct (Hkids c Hc) as (cn & Hcn & _).
      rewrite lookup_insert_ne by congruence. unfold nodes in Hcn.
      by rewrite Hcn. }
    unfold bind at 1. rewrite Hloop.
    unfold bind at 1.
    rewrite (replace_swaps _ this (set_children [] n) p pn l1 l2 para
               (set_children (__children n) (newNode ParagraphNode)));
      rewrite ?nodes_with_nodeMap; try done. }
  eexists. split.
  { destruct (__class n); try done; simpl; apply Hrun; auto. }
  rewrite nodes_with_nodeMap.
  assert (forall c, c ∈ __children n -> c ≠ this /\ c ≠ para /\ c ≠ p) as Hne.
  { intros c Hc. repeat split; intros ->; done. }
  split; [done|]. split; [done|]. split; [by maps|]. split; [by maps|].
  split; [by maps|]. split.
  { intros c cn Hc Hcn. destruct (Hne c Hc) as (? & ? & ?). maps.
    by apply Mkids. }
  split.
  { intros q Hq1 Hq2 Hq3 Hq4. maps. by apply Mrest. }
  split; [|done].
  intros q qn Hq Hin.
  destruct (decide (q = this)) as [->|Hq1].
  { revert Hq. maps. intros [= <-]. by apply elem_of_nil in Hin. }
  destruct (decide (q = p)) as [->|Hq2].
  { revert Hq. maps. intros [= <-]. simpl in Hin.
    apply elem_of_app in Hin as [Hin|Hin]; [done|].
    apply elem_of_cons in Hin as [Hin|Hin]; [congruence|done]. }
  destruct (decide (q = para)) as [->|Hq3].
  { revert Hq. maps. by intros [= <-]. }
  revert Hq. maps. intros Hq.
  assert (exists qn0, nodes e !! q = Some qn0 /\ __children qn0 = __children qn)
    as (qn0 & Hq0 & Hch).
  { destruct (decide (q ∈ __children n)) as [Hqc|Hqc].
    - destruct (Hkids q Hqc) as (cn & Hcn & _).
      rewrite (Mkids q cn Hqc Hcn) in Hq. injection Hq as <-. by exists cn.
    - rewrite Mrest in Hq by done. by exists qn. }
  rewrite <- Hch in Hin.
  destruct (tree_child_parent _ Hinv _ _ _ Hq0 Hin) as (tn & Htn & Htp).
  congruence.
Qed.

(** C8.  In a well-formed tree, [insertNewAfter] on a quote or heading
    [this] with parent [p] returns a fresh key; the node map gains
    exactly that node, a paragraph with the direction of [this], placed
    right behind [this] in [p]'s child list; no other node and no
    selection changes. *)
Theorem insertNewAfter_inserts_paragraph e this n p :
  TreeInvariant (nodes e) -> keysBelowCounter e ->
  nodes e !! this = Some n -> isQuoteOrHeading (__class n) = true ->
  __parent n = Some p ->
  let para := GenKey (_keyCounter e) in
  nodes e !! para = None /\
  exists pn l1 l2 e',
    insertNewAfterOf (__class n) this e = Ok (para, e') /\
    nodes e !! p = Some pn /\ __children pn = l1 ++ this :: l2 /\
    nodes e' !! p = Some (set_children (l1 ++ this :: para :: l2) pn) /\
    nodes e' !! para =
      Some (mkNode ParagraphNode (Some p) [] EmptyString 0 (__dir n) EmptyString) /\
    (forall q, q ≠ p -> q ≠ para -> nodes e' !! q = nodes e !! q) /\
    _selection (_editorState e') = _selection (_editorState e).
Proof.
  intros Hinv Hkeys Hn Hcls Hp.
  pose proof (fresh_key _ Hkeys) as Hfresh.
  simpl. remember (GenKey (_keyCounter e)) as para eqn:Hpara. split; [done|].
  destruct (attached_split _ _ _ _ Hinv Hn Hp)
    as (pn & l1 & l2 & Hpn & Hl & Hl1 & Hl2).
  assert (para ≠ this) as Hpt by congruence.
  assert (para ≠ p) as Hpp by congruence.
  assert (isElementClass (__class n) = true) as Hel by (by destruct (__class n)).
  exists pn, l1, l2.
  assert (forall f,
    f = QuoteNode_insertNewAfter \/ f = HeadingNode_insertNewAfter ->
    exists e', f this e = Ok (para, e') /\
      nodes e' !! p = Some (set_children (l1 ++ this :: para :: l2) pn) /\
      nodes e' !! para =
        Some (mkNode ParagraphNode (Some p) [] EmptyString 0 (__dir n) EmptyString) /\
      (forall q, q ≠ p -> q ≠ para -> nodes e' !! q = nodes e !! q) /\
      _selection (_editorState e') = _selection (_editorState e)) as Hboth.
  { intros f Hf.
    assert (f this e =
      (newBlock <- createParagraphNode ;;
       direction <- getDirection this ;;
       setDirection newBlock direction ;;;
       insertAfter this newBlock ;;;
       ret newBlock) e) as -> by (by destruct Hf as [-> | ->]).
    unfold nodes in *.
    unfold createParagraphNode. repeat first [rewrite <- Hpara | step].
    erewrite (insertAfter_inserts _ this n p pn l1 l2 para); unfold nodes; simpl;
      try done; try (by maps).
    eexists. split; [done|]. simpl.
    repeat split.
    - by maps.
    - by maps.
    - intros q Hq1 Hq2. by maps. }
  destruct (__class n); try done; simpl.
  - destruct (Hboth QuoteNode_insertNewAfter) as (e' & ? & ?); [by left|].
    by exists e'.
  - destruct (Hboth HeadingNode_insertNewAfter) as (e' & ? & ?); [by right|].
    by exists e'.
Qed.

End Tree.

(** ** Initialisation and registration *)

Section Init.
Context `{Collaborators}.

(** C9.  [initializeEditor] without an initial state, on a root whose
    children all resolve: a root without children gets one fresh
    paragraph as its only child, and the selection becomes a collapsed
    caret at offset 0 of that paragraph exactly when the editor had
    focus or a selection existed (otherwise it stays absent); a root
    with children is left with its document unchanged. *)
Theorem initializeEditor_default_document e rn :
  nodes e !! RootKey = Some rn ->
  isElementClass (__class rn) = true ->
  (forall c, c ∈ __children rn -> is_Some (nodes e !! c)) ->
  let para := GenKey (_keyCounter e) in
  let caret := mkPoint para 0 element in
  match __children rn with
  | [] =>
      exists e',
        initializeEditor InitUndefined e = Ok (tt, e') /\
        nodes e' !! RootKey = Some (set_children [para] rn) /\
        nodes e' !! para =
          Some (mkNode ParagraphNode (Some RootKey) [] EmptyString 0 None EmptyString) /\
        (forall q, q ≠ RootKey -> q ≠ para -> nodes e' !! q = nodes e !! q) /\
        _selection (_editorState e') =
          (if bool_decide (_selection (_editorState e) ≠ None) || _hasFocus e
           then Some (RangeSelection caret caret)
           else _selection (_editorState e)) /\
        (_selection (_editorState e') = Some (RangeSelection caret caret) <->
         _hasFocus e = true \/ _selection (_editorState e) ≠ None)
  | _ :: _ =>
      initializeEditor InitUndefined e =
        Ok (tt, after (_editorState e) [EUpdate options_tag] e)
  end.
Proof.
  intros Hroot Hel Hres. simpl.
  destruct (__children rn) as [|c cs] eqn:Hcs.
  - unfold nodes in *.
    unfold initializeEditor, append, removeFromParent, createParagraphNode,
      select.
    run. rewrite ?Hcs. simpl.
    destruct (bool_decide (_selection (_editorState e) ≠ None) || _hasFocus e)
      eqn:Hcond.
    + run. eexists. split; [done|]. simpl. run.
      repeat split; try done.
      * intros q ? ?. by run.
      * intros _.
        apply orb_true_iff in Hcond as [Hc%bool_decide_eq_true|Hc]; auto.
    + run. eexists. split; [done|]. simpl. run.
      apply orb_false_iff in Hcond as [Hc%bool_decide_eq_false Hf].
      assert (_selection (_editorState e) = None) as Hnone.
      { destruct (_selection (_editorState e)); [|done]. by destruct Hc. }
      repeat split; try done.
      * intros q ? ?. by run.
      * by rewrite Hnone.
      * intros [Hf'|Hs]; congruence.
  - destruct (Hres c) as [cn Hcn]; [left|].
    unfold nodes in *. unfold initializeEditor. run. rewrite ?Hcs. by run.
Qed.

Lemma register_all (ls : list (string * CommandListener)) : forall reg,
  foldl (fun r '(ty, listener) => registerCommandListener ty listener 0%nat r)
        reg ls =
    reg ++ ((fun '(ty, l) => mkRegistration ty l 0%nat) <$> ls).
Proof.
  induction ls as [|[ty l] ls IH]; intros reg; simpl.
  - by rewrite app_nil_r.
  - rewrite IH. unfold registerCommandListener. by rewrite <- app_assoc.
Qed.

Lemma mergeRegister_appends reg :
  mergeRegister reg =
    reg ++ ((fun '(ty, l) => mkRegistration ty l 0%nat) <$> richTextListeners).
Proof. apply register_all. Qed.

(** C10.  [registerRichText] with [null] returns with the editor exactly
    as it was: no update ran and nothing was recorded.  With
    [undefined], on a root without children, one update ran and the
    root holds one fresh paragraph.  Both calls leave the same
    registry, which holds every rich-text listener at priority 0
    behind the registrations that were there. *)
Theorem registerRichText_null_skips_initialization reg e rn :
  nodes e !! RootKey = Some rn ->
  isElementClass (__class rn) = true ->
  __children rn = [] ->
  (forall e0, registerRichText reg InitNull e0 = Ok (mergeRegister reg, e0)) /\
  (exists e',
     registerRichText reg InitUndefined e = Ok (mergeRegister reg, e') /\
     _trace e' = _trace e ++ [EUpdate options_tag] /\
     nodes e' !! RootKey = Some (set_children [GenKey (_keyCounter e)] rn) /\
     nodes e' !! GenKey (_keyCounter e) =
       Some (mkNode ParagraphNode (Some RootKey) [] EmptyString 0 None EmptyString)) /\
  (forall ty l, (ty, l) ∈ richTextListeners ->
                mkRegistration ty l 0%nat ∈ mergeRegister reg) /\
  length (mergeRegister reg) = (length reg + 24)%nat.
Proof.
  intros Hroot Hel Hcs. split; [done|]. split; [|split].
  - unfold nodes in *.
    unfold registerRichText, initializeEditor, append, removeFromParent,
      createParagraphNode, select.
    run. rewrite ?Hcs. simpl.
    destruct (bool_decide (_selection (_editorState e) ≠ None) || _hasFocus e);
      run; (eexists; split; [done|]); simpl; by run.
  - intros ty l Hin. rewrite mergeRegister_appends.
    apply elem_of_app. right.
    apply (list_elem_of_fmap_2 (fun '(ty, l) => mkRegistration ty l 0%nat) _ _ Hin).
  - rewrite mergeRegister_appends, length_app, length_fmap. reflexivity.
Qed.

End Init.

Lemma initializeEditor_witness :
  exists e',
    @initializeEditor plainModel InitUndefined (emptyEditor None true) = Ok (tt, e') /\
    (__children <$> nodes e' !! RootKey) = Some [GenKey 1] /\
    nodes e' !! GenKey 1 =
      Some (mkNode ParagraphNode (Some RootKey) [] EmptyString 0 None EmptyString) /\
    _selection (_editorState e') =
      Some (RangeSelection (mkPoint (GenKey 1) 0 element)
                           (mkPoint (GenKey 1) 0 element)).
Proof.
  destruct (@initializeEditor_default_document plainModel (emptyEditor None true)
              (newNode RootNode) eq_refl eq_refl
              (fun c Hc => False_ind _ (proj1 (elem_of_nil c) Hc)))
    as (e' & Hrun & Hroot & Hpara & _ & Hsel & _).
  exists e'. split; [exact Hrun|]. split; [by rewrite Hroot|].
  split; [exact Hpara|exact Hsel].
Defined.

Lemma registerRichText_witness :
  @registerRichText plainModel [] InitNull (emptyEditor None false) =
    Ok (@mergeRegister plainModel [], emptyEditor None false) /\
  exists e',
    @registerRichText plainModel [] InitUndefined (emptyEditor None false) =
      Ok (@mergeRegister plainModel [], e') /\
    _trace e' = [EUpdate options_tag] /\
    (__children <$> nodes e' !! RootKey) = Some [GenKey 1].
Proof.
  destruct (@registerRichText_null_skips_initialization plainModel []
              (emptyEditor None false) (newNode RootNode) eq_refl eq_refl eq_refl)
    as (Hnull & (e' & Hrun & Htrace & Hroot & _) & _).
  split; [apply Hnull|].
  exists e'. split; [exact Hrun|]. split; [exact Htrace|]. by rewrite Hroot.
Defined.

(** ** The claims on concrete documents *)

Lemma sample_anchorBlock cls indent txt caret :
  isElementClass cls = true ->
  anchorBlock (_editorState (sampleEditor cls indent txt (caretAt caret)))
              (mkPoint (GenKey 2) caret text) (GenKey 1) (sampleBlock cls indent).
Proof. intros Hel. by repeat split. Qed.

(** C1, the claim as stated fails: backspace at the start of a block that
    takes literal tabs and has indent 2 leaves the indent at 2. *)
Lemma keyBackspace_tab_block_counterexample :
  _selection (_editorState indentedCode) = caretAt 0 /\
  anchorBlock (_editorState indentedCode) (mkPoint (GenKey 2) 0 text)
              (GenKey 1) (sampleBlock (CustomElementNode true) 2) /\
  match @dispatch plainModel "keyBackspace" (PKeyboardEvent false) indentedCode with
  | Ok (handled, e') =>
      handled = true /\
      indentOf (_editorState e') (GenKey 1) = Some 2 /\
      countEvents isIndentWrite (_trace e') = 0%nat /\
      countEvents isCharDeletion (_trace e') = 0%nat
  | Throw _ => False
  end.
Proof. split; [done|]. split; [by apply sample_anchorBlock|]. by vm_compute. Qed.

Lemma keyBackspace_witness :
  match @dispatch plainModel "keyBackspace" (PKeyboardEvent false) indentedParagraph with
  | Ok (handled, e') =>
      handled = true /\
      indentOf (_editorState e') (GenKey 1) = Some 1 /\
      countEvents (isDispatchOf "outdentContent") (_trace e') = 1%nat /\
      countEvents isCharDeletion (_trace e') = 0%nat
  | Throw _ => False
  end.
Proof.
  rewrite (@keyBackspace_outdents_or_deletes plainModel indentedParagraph
             (mkPoint (GenKey 2) 0 text) (mkPoint (GenKey 2) 0 text) (GenKey 1)
             (sampleBlock ParagraphNode 2) false eq_refl
             (sample_anchorBlock ParagraphNode 2 "hello" 0 eq_refl)).
  by vm_compute.
Defined.

(** C2, the claim as stated fails: [deleteCharacter] (backward) with the
    caret at the start of a paragraph at indent 2 calls the deletion of
    the selection, dispatches no [outdentContent] and leaves the indent
    at 2. *)
Lemma deleteCharacter_no_outdent_counterexample :
  _selection (_editorState indentedParagraph) = caretAt 0 /\
  anchorBlock (_editorState indentedParagraph) (mkPoint (GenKey 2) 0 text)
              (GenKey 1) (sampleBlock ParagraphNode 2) /\
  match @dispatch plainModel "deleteCharacter" (PBoolean true) indentedParagraph with
  | Ok (handled, e') =>
      handled = true /\
      countEvents (isDispatchOf "outdentContent") (_trace e') = 0%nat /\
      countEvents isCharDeletion (_trace e') = 1%nat /\
      indentOf (_editorState e') (GenKey 1) = Some 2
  | Throw _ => False
  end.
Proof. split; [done|]. split; [by apply sample_anchorBlock|]. by vm_compute. Qed.

Lemma deleteCharacter_witness :
  @dispatch plainModel "deleteCharacter" (PBoolean true) indentedParagraph =
    Ok (true,
        after (_editorState indentedParagraph)
              [EExecCommand "deleteCharacter" (PBoolean true);
               ESelDeleteCharacter true] indentedParagraph).
Proof.
  exact (@deleteCharacter_backward_deletes plainModel indentedParagraph eq_refl).
Defined.

Lemma indentContent_witness :
  match @dispatch plainModel "indentContent" PUndefined indentedParagraph with
  | Ok (handled, e') =>
      handled = true /\ indentOf (_editorState e') (GenKey 1) = Some 3
  | Throw _ => False
  end.
Proof.
  rewrite (proj1 (@indentContent_tab_or_indent plainModel indentedParagraph
             (mkPoint (GenKey 2) 0 text) (mkPoint (GenKey 2) 0 text) (GenKey 1)
             (sampleBlock ParagraphNode 2) PUndefined eq_refl
             (sample_anchorBlock ParagraphNode 2 "hello" 0 eq_refl))).
  by vm_compute.
Defined.

(** C4, the claim as stated fails: [outdentContent] in a block that takes
    literal tabs, with no tab before the caret, leaves the indent at 2. *)
Lemma outdentContent_tab_block_counterexample :
  _selection (_editorState indentedCode) = caretAt 0 /\
  anchorBlock (_editorState indentedCode) (mkPoint (GenKey 2) 0 text)
              (GenKey 1) (sampleBlock (CustomElementNode true) 2) /\
  charAt (plain_getTextContent (_editorState indentedCode) (GenKey 2)) (0 - 1)
    = None /\
  match @dispatch plainModel "outdentContent" PUndefined indentedCode with
  | Ok (handled, e') =>
      handled = true /\
      indentOf (_editorState e') (GenKey 1) = Some 2 /\
      countEvents isIndentWrite (_trace e') = 0%nat
  | Throw _ => False
  end.
Proof.
  split; [done|]. split; [by apply sample_anchorBlock|]. by vm_compute.
Qed.

Lemma outdentContent_witness :
  match @dispatch plainModel "outdentContent" PUndefined codeAfterTab with
  | Ok (handled, e') =>
      handled = true /\
      (__text <$> nodes e' !! GenKey 2) = Some "x" /\
      countEvents isCharDeletion (_trace e') = 1%nat /\
      countEvents isIndentWrite (_trace e') = 0%nat
  | Throw _ => False
  end.
Proof.
  rewrite (proj1 (@outdentContent_tab_or_outdent plainModel codeAfterTab
             (mkPoint (GenKey 2) 1 text) (mkPoint (GenKey 2) 1 text) (GenKey 1)
             (sampleBlock (CustomElementNode true) 0) PUndefined eq_refl
             (sample_anchorBlock (CustomElementNode true) 0
                (String "009"%char "x") 1 eq_refl))).
  by vm_compute.
Defined.

Lemma keyTab_witness :
  outcome (@dispatch plainModel "keyTab" (PKeyboardEvent true) indentedParagraph) =
  outcome (@dispatch plainModel "outdentContent" PUndefined indentedParagraph).
Proof.
  exact (@keyTab_same_as_direct_dispatch plainModel indentedParagraph true
           PUndefined eq_refl).
Defined.

Lemma boolean_commands_witness :
  @dispatch plainModel "deleteWord" (PBoolean true)
     (sampleEditor ParagraphNode 0 "hello" (Some (NodeSelection [GenKey 1]))) =
    Ok (false,
        after (_editorState
                 (sampleEditor ParagraphNode 0 "hello"
                    (Some (NodeSelection [GenKey 1]))))
              [EExecCommand "deleteWord" (PBoolean true)]
              (sampleEditor ParagraphNode 0 "hello"
                 (Some (NodeSelection [GenKey 1])))).
Proof.
  apply (@boolean_commands_decline_without_range plainModel); [|reflexivity].
  right; left.
Defined.

(** The sample tree satisfies the invariant. *)
Lemma blockWithTwoChildren_tree cls :
  TreeInvariant (nodes (blockWithTwoChildren cls)).
Proof.
  assert (forall k n, nodes (blockWithTwoChildren cls) !! k = Some n ->
    (k = RootKey /\ n = mkNode RootNode None [GenKey 1; GenKey 4] EmptyString 0 None EmptyString) \/
    (k = GenKey 1 /\
     n = mkNode cls (Some RootKey) [GenKey 2; GenKey 3] EmptyString 0 (Some rtl) EmptyString) \/
    (k = GenKey 2 /\ n = mkNode TextNode (Some (GenKey 1)) [] EmptyString 0 None "ab") \/
    (k = GenKey 3 /\ n = mkNode TextNode (Some (GenKey 1)) [] EmptyString 0 None "cd") \/
    (k = GenKey 4 /\ n = mkNode ParagraphNode (Some RootKey) [] EmptyString 0 None EmptyString))
    as Hcases.
  { intros k n Hk. unfold blockWithTwoChildren, nodes in Hk. simpl in Hk.
    repeat (apply lookup_insert_Some in Hk as [[<- <-]|[? Hk]]; [tauto|]).
    by rewrite lookup_empty in Hk. }
  split.
  - intros k n c Hk Hc.
    destruct (Hcases k n Hk) as [[-> ->]|[[-> ->]|[[-> ->]|[[-> ->]|[-> ->]]]]];
      simpl in Hc;
      repeat (apply elem_of_cons in Hc as [->|Hc]);
      try (by apply elem_of_nil in Hc);
      eexists; split; by vm_compute.
  - intros k n p Hk Hp.
    destruct (Hcases k n Hk) as [[-> ->]|[[-> ->]|[[-> ->]|[[-> ->]|[-> ->]]]]];
      simpl in Hp; try done; injection Hp as <-;
      eexists; (split; [by vm_compute|]); simpl;
      repeat first [apply list_elem_of_here | apply list_elem_of_further].
  - intros k n Hk.
    destruct (Hcases k n Hk) as [[-> ->]|[[-> ->]|[[-> ->]|[[-> ->]|[-> ->]]]]];
      simpl; apply (bool_decide_unpack _); by vm_compute.
  - exists (fun k => match k with
                     | RootKey => 0
                     | GenKey 1 | GenKey 4 => 1
                     | GenKey _ => 2
                     end%nat).
    intros k n p Hk Hp.
    destruct (Hcases k n Hk) as [[-> ->]|[[-> ->]|[[-> ->]|[[-> ->]|[-> ->]]]]];
      simpl in Hp; try done; injection Hp as <-; simpl; lia.
Qed.

Lemma blockWithTwoChildren_keys cls : keysBelowCounter (blockWithTwoChildren cls).
Proof.
  intros i [n Hn]. unfold blockWithTwoChildren, nodes in Hn. simpl in *.
  repeat (apply lookup_insert_Some in Hn as [[Hk _]|[_ Hn]];
          [try done; injection Hk as <-; lia|]).
  by rewrite lookup_empty in Hn.
Qed.

Lemma collapseAtStart_witness :
  exists e',
    collapseAtStartOf (HeadingNode h2) (GenKey 1)
      (blockWithTwoChildren (HeadingNode h2)) = Ok (true, e') /\
    nodes e' !! GenKey 5 =
      Some (mkNode ParagraphNode (Some RootKey) [GenKey 2; GenKey 3] EmptyString 0 None EmptyString) /\
    nodes e' !! GenKey 1 =
      Some (mkNode (HeadingNode h2) None [] EmptyString 0 (Some rtl) EmptyString) /\
    (__parent <$> nodes e' !! GenKey 2) = Some (Some (GenKey 5)) /\
    (__parent <$> nodes e' !! GenKey 3) = Some (Some (GenKey 5)).
Proof.
  destruct (collapseAtStart_moves_children
              (blockWithTwoChildren (HeadingNode h2)) (GenKey 1)
              (mkNode (HeadingNode h2) (Some RootKey) [GenKey 2; GenKey 3]
                      EmptyString 0 (Some rtl) EmptyString)
              RootKey
              (blockWithTwoChildren_tree _) (blockWithTwoChildren_keys _)
              eq_refl eq_refl eq_refl)
    as (_ & pn & l1 & l2 & e' & Hrun & _ & _ & Hpara & _ & Hthis & Hkids & _).
  exists e'. split; [exact Hrun|]. split; [exact Hpara|]. split; [exact Hthis|].
  split.
  - rewrite (Hkids (GenKey 2) (mkNode TextNode (Some (GenKey 1)) [] EmptyString 0 None "ab"));
      [done| left | done].
  - rewrite (Hkids (GenKey 3) (mkNode TextNode (Some (GenKey 1)) [] EmptyString 0 None "cd"));
      [done| right; left | done].
Defined.

Lemma insertNewAfter_witness :
  exists e',
    insertNewAfterOf QuoteNode (GenKey 1) (blockWithTwoChildren QuoteNode) =
      Ok (GenKey 5, e') /\
    nodes e' !! GenKey 5 =
      Some (mkNode ParagraphNode (Some RootKey) [] EmptyString 0 (Some rtl) EmptyString) /\
    nodes e' !! GenKey 1 = nodes (blockWithTwoChildren QuoteNode) !! GenKey 1.
Proof.
  destruct (insertNewAfter_inserts_paragraph
              (blockWithTwoChildren QuoteNode) (GenKey 1)
              (mkNode QuoteNode (Some RootKey) [GenKey 2; GenKey 3]
                      EmptyString 0 (Some rtl) EmptyString)
              RootKey
              (blockWithTwoChildren_tree _) (blockWithTwoChildren_keys _)
              eq_refl eq_refl eq_refl)
    as (_ & pn & l1 & l2 & e' & Hrun & _ & _ & _ & Hpara & Hrest & _).
  exists e'. split; [exact Hrun|]. split; [exact Hpara|].
  by apply Hrest.
Defined.

(** * Further properties of the code *)

(** ** The guard of every listener *)

Create HintDb listeners.
#[export] Hint Unfold clickListener deleteCharacterListener deleteWordListener
  deleteLineListener insertTextListener removeTextListener formatTextListener
  formatElementListener insertLineBreakListener insertParagraphListener
  indentContentListener outdentContentListener keyArrowLeftListener
  keyArrowRightListener keyBackspaceListener keyDeleteListener keyEnterListener
  keyTabListener keyEscapeListener dropListener dragstartListener copyListener
  cutListener pasteListener : listeners.

Section Guards.
Context `{Collaborators}.

Arguments execCommand : simpl never.

(** Each registered command has its own listener and no other. *)
Lemma listeners_registered ty l :
  (ty, l) ∈ richTextListeners ->
  listenersFor richTextRegistry ty = [l].
Proof.
  intros Hin. unfold richTextListeners in Hin.
  repeat (apply elem_of_cons in Hin as [Heq|Hin];
          [injection Heq as -> ->; vm_compute; reflexivity|]).
  by apply elem_of_nil in Hin.
Qed.

(** Runs the listener of a registered command. *)
Ltac each_listener Hin :=
  unfold dispatch;
  rewrite (execCommand_single _ _ _ _ _ _ (listeners_registered _ _ Hin));
  unfold richTextListeners in Hin;
  repeat (apply elem_of_cons in Hin as [Heq|Hin];
          [injection Heq as -> ->|]);
  [..|by apply elem_of_nil in Hin].

(** X1.  Without a selection every rich-text command declines: the
    listener answers [false] before it looks at the payload, and only the
    dispatch is recorded. *)
Theorem every_command_declines_without_selection e ty l payload :
  (ty, l) ∈ richTextListeners ->
  _selection (_editorState e) = None ->
  dispatch ty payload e =
    Ok (false, after (_editorState e) [EExecCommand ty payload] e).
Proof.
  intros Hin Hsel. each_listener Hin.
  all: autounfold with listeners; by run.
Qed.

(** X2.  On a NodeSelection, [click] empties the selection and answers
    [true]; every other command declines and changes nothing. *)
Theorem node_selection_only_click_handles e ty l payload ns :
  (ty, l) ∈ richTextListeners ->
  _selection (_editorState e) = Some (NodeSelection ns) ->
  dispatch ty payload e =
    if String.eqb ty "click" then
      Ok (true, after (clearedSelection (_editorState e))
                      [EExecCommand ty payload; ESelClear] e)
    else
      Ok (false, after (_editorState e) [EExecCommand ty payload] e).
Proof.
  intros Hin Hsel. each_listener Hin.
  all: autounfold with listeners; unfold clearNodeSelection; run;
    unfold after, clearedSelection; simpl; by rewrite <- ?app_assoc.
Qed.

(** X3.  On a GridSelection every command but [copy], [cut] and [paste]
    declines and changes nothing. *)
Theorem grid_selection_only_clipboard_handles e ty l payload g a f :
  (ty, l) ∈ richTextListeners ->
  ty ∉ ["copy"; "cut"; "paste"] ->
  _selection (_editorState e) = Some (GridSelection g a f) ->
  dispatch ty payload e =
    Ok (false, after (_editorState e) [EExecCommand ty payload] e).
Proof.
  intros Hin Hty Hsel. each_listener Hin.
  all: try solve [exfalso; apply Hty;
                  repeat first [apply list_elem_of_here | apply list_elem_of_further]].
  all: autounfold with listeners; by run.
Qed.

End Guards.

(** ** The commands on a Range selection *)

Ltac registered :=
  unfold richTextListeners;
  repeat first [apply list_elem_of_here | apply list_elem_of_further].

Section Commands.
Context `{Collaborators}.

Arguments execCommand : simpl never.

(** Unfolds the dispatch of the command [ty] to its listener [l]. *)
Ltac dispatch_to ty l :=
  unfold dispatch;
  rewrite (execCommand_single _ _ ty l _ _
             (listeners_registered ty l ltac:(registered)));
  autounfold with listeners.

Lemma exec_insertLineBreak fuel payload e :
  isRangeSelection (_selection (_editorState e)) = true ->
  execCommand (S fuel) richTextRegistry "insertLineBreak" payload e =
    Ok (true,
        after (sel_insertLineBreak (toBoolean payload) (_editorState e))
              [EExecCommand "insertLineBreak" payload;
               ESelInsertLineBreak (toBoolean payload)] e).
Proof.
  intros Hsel.
  rewrite (execCommand_single _ _ _ _ _ _ listeners_insertLineBreak).
  unfold insertLineBreakListener, call, after. run.
  destruct (_selection (_editorState e)) as [[]|]; try done; run.
  by rewrite <- app_assoc.
Qed.

Lemma exec_insertParagraph fuel payload e :
  isRangeSelection (_selection (_editorState e)) = true ->
  execCommand (S fuel) richTextRegistry "insertParagraph" payload e =
    Ok (true,
        after (sel_insertParagraph (_editorState e))
              [EExecCommand "insertParagraph" payload; ESelInsertParagraph] e).
Proof.
  intros Hsel.
  rewrite (execCommand_single _ _ _ _ _ _
             (listeners_registered "insertParagraph" insertParagraphListener
                ltac:(registered))).
  unfold insertParagraphListener, call, after. run.
  destruct (_selection (_editorState e)) as [[]|]; try done; run.
  by rewrite <- app_assoc.
Qed.

(** X4.  [keyEnter] on a Range selection suppresses the default and
    answers [true]; with shift it inserts a line break whose
    select-start flag is off (the re-dispatch carries no payload),
    without shift it inserts a paragraph. *)
Theorem keyEnter_line_break_or_paragraph e shift :
  isRangeSelection (_selection (_editorState e)) = true ->
  dispatch "keyEnter" (PKeyboardEvent shift) e =
    Ok (true,
        if shift then
          after (sel_insertLineBreak false (_editorState e))
                [EExecCommand "keyEnter" (PKeyboardEvent shift); EPreventDefault;
                 EExecCommand "insertLineBreak" PUndefined;
                 ESelInsertLineBreak false] e
        else
          after (sel_insertParagraph (_editorState e))
                [EExecCommand "keyEnter" (PKeyboardEvent shift); EPreventDefault;
                 EExecCommand "insertParagraph" PUndefined;
                 ESelInsertParagraph] e).
Proof.
  intros Hsel. dispatch_to "keyEnter" keyEnterListener. unfold preventDefault. run.
  destruct (_selection (_editorState e)) as [[]|] eqn:Hs; try done. run.
  destruct shift.
  - rewrite exec_insertLineBreak by (simpl; by rewrite Hs).
    unfold after; simpl; by rewrite <- !app_assoc.
  - rewrite exec_insertParagraph by (simpl; by rewrite Hs).
    unfold after; simpl; by rewrite <- !app_assoc.
Qed.

(** X5.  [keyDelete] on a Range selection always deletes forward: one
    call of the character deletion with the backward flag off, no
    dispatch of [outdentContent] and no indent write, wherever the caret
    is. *)
Theorem keyDelete_deletes_forward e shift :
  isRangeSelection (_selection (_editorState e)) = true ->
  dispatch "keyDelete" (PKeyboardEvent shift) e =
    Ok (true,
        after (sel_deleteCharacter false (_editorState e))
              [EExecCommand "keyDelete" (PKeyboardEvent shift); EPreventDefault;
               EExecCommand "deleteCharacter" (PBoolean false);
               ESelDeleteCharacter false] e).
Proof.
  intros Hsel. dispatch_to "keyDelete" keyDeleteListener. unfold preventDefault. run.
  destruct (_selection (_editorState e)) as [[]|] eqn:Hs; try done. run.
  rewrite exec_deleteCharacter by (simpl; by rewrite Hs).
  unfold after; simpl; by rewrite <- !app_assoc.
Qed.

(** X6.  On a Range selection the commands that only delegate make one
    call of the selection's operation of the same name, with the payload
    they were given, and answer [true]. *)
Theorem delegating_commands e b f :
  isRangeSelection (_selection (_editorState e)) = true ->
  dispatch "deleteWord" (PBoolean b) e =
    Ok (true, after (sel_deleteWord b (_editorState e))
                    [EExecCommand "deleteWord" (PBoolean b); ESelDeleteWord b] e) /\
  dispatch "deleteLine" (PBoolean b) e =
    Ok (true, after (sel_deleteLine b (_editorState e))
                    [EExecCommand "deleteLine" (PBoolean b); ESelDeleteLine b] e) /\
  dispatch "insertLineBreak" (PBoolean b) e =
    Ok (true, after (sel_insertLineBreak b (_editorState e))
                    [EExecCommand "insertLineBreak" (PBoolean b);
                     ESelInsertLineBreak b] e) /\
  dispatch "removeText" PUndefined e =
    Ok (true, after (sel_removeText (_editorState e))
                    [EExecCommand "removeText" PUndefined; ESelRemoveText] e) /\
  dispatch "insertParagraph" PUndefined e =
    Ok (true, after (sel_insertParagraph (_editorState e))
                    [EExecCommand "insertParagraph" PUndefined;
                     ESelInsertParagraph] e) /\
  dispatch "formatText" (PString f) e =
    Ok (true, after (sel_formatText f (_editorState e))
                    [EExecCommand "formatText" (PString f); ESelFormatText f] e).
Proof.
  intros Hsel.
  destruct (_selection (_editorState e)) as [[]|] eqn:Hs; try done.
  repeat split.
  - dispatch_to "deleteWord" deleteWordListener. unfold call, after. run.
    by rewrite <- app_assoc.
  - dispatch_to "deleteLine" deleteLineListener. unfold call, after. run.
    by rewrite <- app_assoc.
  - dispatch_to "insertLineBreak" insertLineBreakListener. unfold call, after. run.
    by rewrite <- app_assoc.
  - dispatch_to "removeText" removeTextListener. unfold call, after. run.
    by rewrite <- app_assoc.
  - dispatch_to "insertParagraph" insertParagraphListener. unfold call, after. run.
    by rewrite <- app_assoc.
  - dispatch_to "formatText" formatTextListener. unfold call, after. run.
    by rewrite <- app_assoc.
Qed.

(** X7.  [insertText] on a Range selection answers [true] for a string
    and for an input event alike.  A string is inserted as it is, the
    empty string included; an input event with a data transfer goes to
    the transfer path and its [data] is ignored; one without inserts its
    [data], and missing or empty [data] leaves the document as it is. *)
Theorem insertText_cases e :
  isRangeSelection (_selection (_editorState e)) = true ->
  (forall s,
     dispatch "insertText" (PString s) e =
       Ok (true, after (sel_insertText s (_editorState e))
                       [EExecCommand "insertText" (PString s);
                        ESelInsertText s] e)) /\
  (forall d data,
     dispatch "insertText" (PInputEvent (Some d) data) e =
       Ok (true, after (insertDataTransferForRichText d (_editorState e))
                       [EExecCommand "insertText" (PInputEvent (Some d) data);
                        EInsertDataTransfer d] e)) /\
  (forall s, s <> EmptyString ->
     dispatch "insertText" (PInputEvent None (Some s)) e =
       Ok (true, after (sel_insertText s (_editorState e))
                       [EExecCommand "insertText" (PInputEvent None (Some s));
                        ESelInsertText s] e)) /\
  (forall data, data = None \/ data = Some EmptyString ->
     dispatch "insertText" (PInputEvent None data) e =
       Ok (true, after (_editorState e)
                       [EExecCommand "insertText" (PInputEvent None data)] e)).
Proof.
  intros Hsel.
  destruct (_selection (_editorState e)) as [[]|] eqn:Hs; try done.
  repeat split.
  - intros s. dispatch_to "insertText" insertTextListener. unfold call, after. run.
    by rewrite <- app_assoc.
  - intros d data. dispatch_to "insertText" insertTextListener. unfold call, after. run.
    by rewrite <- app_assoc.
  - intros s Hne. dispatch_to "insertText" insertTextListener. unfold call, after. run.
    destruct (String.eqb_spec s EmptyString) as [->|_]; [done|]. run.
    by rewrite <- app_assoc.
  - intros data [-> | ->]; dispatch_to "insertText" insertTextListener; unfold call, after;
      by run.
Qed.

(** X8.  [formatElement] with a format name on a Range selection sets the
    format of the anchor's node if that is an element and of its parent
    otherwise, answers [true] and touches nothing else. *)
Theorem formatElement_formats_block e anchor focus blk n format :
  _selection (_editorState e) = Some (RangeSelection anchor focus) ->
  formatTargetOf (_editorState e) anchor = Some blk ->
  _nodeMap (_editorState e) !! blk = Some n ->
  isElementClass (__class n) = true ->
  dispatch "formatElement" (PString format) e =
    Ok (true,
        after (writeBlock blk (set_format format n) (_editorState e))
              [EExecCommand "formatElement" (PString format);
               ESetFormat blk format] e).
Proof.
  intros Hsel Htarget Hn Hel. dispatch_to "formatElement" formatElementListener.
  unfold formatTargetOf in Htarget. unfold after, writeBlock. run.
  destruct (_nodeMap (_editorState e) !! key anchor) as [an|] eqn:Han; [|done].
  run. destruct (isElementClass (__class an)) eqn:Hae.
  - injection Htarget as <-. run. by rewrite ?Hsel, <- app_assoc.
  - destruct (__parent an) as [b|] eqn:Hp; [|done]. run.
    destruct (_nodeMap (_editorState e) !! b) eqn:Hb; [|done].
    injection Htarget as ->. run. by rewrite ?Hsel, <- app_assoc.
Qed.

(** X9.  An arrow key on a Range selection steps in only when the
    selection helper asks for an override: then the default is
    suppressed and the caret moves one character (backward for the left
    key), extending the selection when shift is held; otherwise the
    listener declines and the event is not suppressed. *)
Theorem arrow_keys_override_on_demand e shift :
  isRangeSelection (_selection (_editorState e)) = true ->
  dispatch "keyArrowLeft" (PKeyboardEvent shift) e =
    (if shouldOverrideDefaultCharacterSelection (_editorState e) true then
       Ok (true, after (moveCharacter shift true (_editorState e))
                       [EExecCommand "keyArrowLeft" (PKeyboardEvent shift);
                        EPreventDefault; EMoveCharacter shift true] e)
     else
       Ok (false, after (_editorState e)
                        [EExecCommand "keyArrowLeft" (PKeyboardEvent shift)] e)) /\
  dispatch "keyArrowRight" (PKeyboardEvent shift) e =
    (if shouldOverrideDefaultCharacterSelection (_editorState e) false then
       Ok (true, after (moveCharacter shift false (_editorState e))
                       [EExecCommand "keyArrowRight" (PKeyboardEvent shift);
                        EPreventDefault; EMoveCharacter shift false] e)
     else
       Ok (false, after (_editorState e)
                        [EExecCommand "keyArrowRight" (PKeyboardEvent shift)] e)).
Proof.
  intros Hsel.
  destruct (_selection (_editorState e)) as [[]|] eqn:Hs; try done.
  split.
  - dispatch_to "keyArrowLeft" keyArrowLeftListener.
    unfold shiftKey, preventDefault, call, after. run.
    destruct (shouldOverrideDefaultCharacterSelection _ true); run; [|done].
    by rewrite <- !app_assoc.
  - dispatch_to "keyArrowRight" keyArrowRightListener.
    unfold shiftKey, preventDefault, call, after. run.
    destruct (shouldOverrideDefaultCharacterSelection _ false); run; [|done].
    by rewrite <- !app_assoc.
Qed.

(** X10.  [keyEscape], [drop] and [dragstart] on a Range selection are
    handled without touching the document: escape releases the focus,
    the two drag commands only suppress the default. *)
Theorem escape_and_drag_leave_document e shift :
  isRangeSelection (_selection (_editorState e)) = true ->
  dispatch "keyEscape" (PKeyboardEvent shift) e =
    Ok (true, after (_editorState e)
                    [EExecCommand "keyEscape" (PKeyboardEvent shift); EBlur] e) /\
  dispatch "drop" PDragEvent e =
    Ok (true, after (_editorState e)
                    [EExecCommand "drop" PDragEvent; EPreventDefault] e) /\
  dispatch "dragstart" PDragEvent e =
    Ok (true, after (_editorState e)
                    [EExecCommand "dragstart" PDragEvent; EPreventDefault] e).
Proof.
  intros Hsel.
  destruct (_selection (_editorState e)) as [[]|] eqn:Hs; try done.
  repeat split.
  - dispatch_to "keyEscape" keyEscapeListener. unfold after. run. by rewrite <- app_assoc.
  - dispatch_to "drop" dropListener. unfold preventDefault, after. run.
    by rewrite <- app_assoc.
  - dispatch_to "dragstart" dragstartListener. unfold preventDefault, after. run.
    by rewrite <- app_assoc.
Qed.

End Commands.

(** ** The clipboard commands *)

Section Clipboard.
Context `{Collaborators}.

Arguments execCommand : simpl never.

Ltac dispatch_to ty l :=
  unfold dispatch;
  rewrite (execCommand_single _ _ ty l _ _
             (listeners_registered ty l ltac:(registered)));
  autounfold with listeners.

(** X11.  [copy] on a Range or Grid selection suppresses the default,
    answers [true] and leaves the document as it is.  With clipboard data
    it writes the HTML and the structured form when there are any, and
    the plain text always and last; without clipboard data it writes
    nothing. *)
Theorem copy_writes_and_keeps_document e d :
  isRangeSelection (_selection (_editorState e))
    || isGridSelection (_selection (_editorState e)) = true ->
  dispatch "copy" (PClipboardEvent d) e =
    Ok (true,
        after (_editorState e)
              ([EExecCommand "copy" (PClipboardEvent d); EPreventDefault;
                EUpdate None] ++
               match d with
               | Some _ => clipboardWrites (_editorState e)
               | None => []
               end) e).
Proof.
  intros Hsel. dispatch_to "copy" copyListener.
  unfold onCopyForRichText, preventDefault, clipboardWrites, after. run.
  destruct (_selection (_editorState e)) as [[]|] eqn:Hs; try done;
    destruct d; run;
    destruct (getHtmlContent (_editorState e));
    destruct (getLexicalContent (_editorState e)); run;
    by rewrite <- ?app_assoc.
Qed.

(** X12.  [cut] does what [copy] does and then removes the selected text
    when the selection is a Range; on a Grid selection it copies and
    removes nothing. *)
Theorem cut_copies_then_removes_range e d :
  isRangeSelection (_selection (_editorState e))
    || isGridSelection (_selection (_editorState e)) = true ->
  dispatch "cut" (PClipboardEvent d) e =
    Ok (true,
        let copied :=
          [EExecCommand "cut" (PClipboardEvent d); EPreventDefault;
           EUpdate None] ++
          match d with
          | Some _ => clipboardWrites (_editorState e)
          | None => []
          end in
        if isRangeSelection (_selection (_editorState e)) then
          after (sel_removeText (_editorState e))
                (copied ++ [EUpdate None; ESelRemoveText]) e
        else
          after (_editorState e) (copied ++ [EUpdate None]) e).
Proof.
  intros Hsel. dispatch_to "cut" cutListener.
  unfold onCutForRichText, onCopyForRichText, preventDefault, clipboardWrites,
    call, after.
  run.
  destruct (_selection (_editorState e)) as [[]|] eqn:Hs; try done;
    destruct d; run;
    destruct (getHtmlContent (_editorState e));
    destruct (getLexicalContent (_editorState e)); run;
    rewrite ?Hs; simpl; by rewrite <- ?app_assoc.
Qed.

(** X13.  [paste] on a Range or Grid selection suppresses the default and
    answers [true]; the clipboard data is inserted only when the
    selection is a Range and the event carries data, otherwise the
    document stays as it is. *)
Theorem paste_inserts_on_range_only e d :
  isRangeSelection (_selection (_editorState e))
    || isGridSelection (_selection (_editorState e)) = true ->
  dispatch "paste" (PClipboardEvent d) e =
    Ok (true,
        match d, isRangeSelection (_selection (_editorState e)) with
        | Some clipboardData, true =>
            after (insertDataTransferForRichText clipboardData (_editorState e))
                  [EExecCommand "paste" (PClipboardEvent d); EPreventDefault;
                   EUpdate None; EInsertDataTransfer clipboardData] e
        | _, _ =>
            after (_editorState e)
                  [EExecCommand "paste" (PClipboardEvent d); EPreventDefault;
                   EUpdate None] e
        end).
Proof.
  intros Hsel. dispatch_to "paste" pasteListener.
  unfold onPasteForRichText, preventDefault, call, after. run.
  destruct (_selection (_editorState e)) as [[]|] eqn:Hs; try done;
    destruct d; run; rewrite ?Hs; simpl; by rewrite <- ?app_assoc.
Qed.

End Clipboard.

(** ** Indentation: bounds, round trips and the key bindings *)

Section Indentation.
Context `{Collaborators}.

Arguments execCommand : simpl never.

Lemma exec_keyTab fuel e shift :
  isRangeSelection (_selection (_editorState e)) = true ->
  execCommand (S fuel) richTextRegistry "keyTab" (PKeyboardEvent shift) e =
    match execCommand fuel richTextRegistry
            (if shift then "outdentContent" else "indentContent") PUndefined
            (after (_editorState e)
                   [EExecCommand "keyTab" (PKeyboardEvent shift); EPreventDefault] e)
    with
    | Ok (handled, e') => Ok (handled, e')
    | Throw msg => Throw msg
    end.
Proof.
  intros Hsel.
  rewrite (execCommand_single _ _ _ _ _ _ listeners_keyTab).
  unfold keyTabListener, preventDefault. run.
  destruct (_selection (_editorState e)) as [[]|]; try done. run.
  unfold after. simpl. by rewrite <- app_assoc.
Qed.

Lemma exec_keyBackspace fuel e anchor focus blk n shift :
  _selection (_editorState e) = Some (RangeSelection anchor focus) ->
  anchorBlock (_editorState e) anchor blk n ->
  execCommand (S fuel) richTextRegistry "keyBackspace" (PKeyboardEvent shift) e =
    match
      (if isCollapsed anchor focus && bool_decide (offset anchor = 0)
          && bool_decide (__indent n > 0)
       then execCommand fuel richTextRegistry "outdentContent" PUndefined
       else execCommand fuel richTextRegistry "deleteCharacter" (PBoolean true))
        (after (_editorState e)
               [EExecCommand "keyBackspace" (PKeyboardEvent shift);
                EPreventDefault] e)
    with
    | Ok (handled, e') => Ok (handled, e')
    | Throw msg => Throw msg
    end.
Proof.
  intros Hsel (Hblk & Hn & Hel).
  rewrite (execCommand_single _ _ _ _ _ _ listeners_keyBackspace).
  unfold keyBackspaceListener, preventDefault. run.
  assert (forall e0 : Editor,
            mkEditor (_editorState e) (_keyCounter e0) (_hasFocus e0)
              ((_trace e ++ [EExecCommand "keyBackspace" (PKeyboardEvent shift)])
                 ++ [EPreventDefault]) =
            mkEditor (_editorState e) (_keyCounter e0) (_hasFocus e0)
              (_trace e ++ [EExecCommand "keyBackspace" (PKeyboardEvent shift);
                            EPreventDefault])) as Htr.
  { intros e0. by rewrite <- app_assoc. }
  destruct (isCollapsed anchor focus && bool_decide (offset anchor = 0)) eqn:Hc.
  - rewrite (parentBlockOf_ok _ _ blk) by done. run.
    destruct (bool_decide (__indent n > 0)); simpl; unfold after; simpl;
      by rewrite Htr.
  - simpl. unfold after. simpl. by rewrite Htr.
Qed.

Lemma indentBounds_writeBlock es blk n i :
  indentBounds es -> 0 <= i <= 10 ->
  indentBounds (writeBlock blk (set_indent i n) es).
Proof.
  intros Hb Hi k n' Hk. unfold writeBlock in Hk. simpl in Hk.
  apply lookup_insert_Some in Hk as [[_ <-]|[_ Hk]]; [done|].
  by apply (Hb k).
Qed.

Lemma anchorBlock_set_indent es anchor blk n i :
  anchorBlock es anchor blk n ->
  anchorBlock (writeBlock blk (set_indent i n) es) anchor blk (set_indent i n).
Proof.
  intros (Hblk & Hn & Hel). split; [|split; [|done]].
  - unfold blockOf, writeBlock in *. simpl.
    assert (forall k, is_Some (<[blk := set_indent i n]> (_nodeMap es) !! k) <->
                      is_Some (_nodeMap es !! k)) as Hsome.
    { intros k. rewrite lookup_insert. case_decide; subst; [|done].
      rewrite Hn. split; eauto. }
    assert (forall k, __parent <$> (<[blk := set_indent i n]> (_nodeMap es) !! k) =
                      __parent <$> (_nodeMap es !! k)) as Hpar.
    { intros k. rewrite lookup_insert. case_decide; subst; [|done].
      by rewrite Hn. }
    pose proof (Hpar (key anchor)) as Hpa. pose proof (Hsome (key anchor)) as Hsa.
    destruct (_nodeMap es !! key anchor) as [an|] eqn:Han; [|done].
    destruct (<[blk := set_indent i n]> (_nodeMap es) !! key anchor) as [an'|];
      [|by destruct Hsa as [_ [? ?]]; eauto].
    simpl in Hpa. injection Hpa as Hpa. rewrite Hpa.
    destruct (type anchor); [|done].
    destruct (__parent an) as [b|]; [|done].
    pose proof (Hsome b) as Hsb.
    destruct (_nodeMap es !! b); [|done].
    destruct (<[blk := set_indent i n]> (_nodeMap es) !! b); [done|].
    destruct Hsb as [_ Hsb]. by destruct Hsb; eauto.
  - unfold writeBlock. simpl. by rewrite lookup_insert_eq.
Qed.

Lemma writeBlock_back es blk n i :
  _nodeMap es !! blk = Some n ->
  writeBlock blk (set_indent (__indent n) (set_indent i n))
             (writeBlock blk (set_indent i n) es) = es.
Proof.
  intros Hn. unfold writeBlock. simpl. destruct es as [m sel]. simpl in *.
  f_equal. rewrite insert_insert_eq. apply insert_id. rewrite Hn. by destruct n.
Qed.

(** X14.  The indent commands keep every indent within 0 and 10: if all
    indents are within these bounds before [indentContent],
    [outdentContent], [keyTab] or [keyBackspace] and the text operations
    they may hand over to keep them, all indents are within the bounds
    afterwards. *)
Theorem indent_commands_keep_bounds e anchor focus blk n ty payload :
  ty = "indentContent" \/ ty = "outdentContent" \/
    (exists shift, payload = PKeyboardEvent shift /\
                   (ty = "keyTab" \/ ty = "keyBackspace")) ->
  _selection (_editorState e) = Some (RangeSelection anchor focus) ->
  anchorBlock (_editorState e) anchor blk n ->
  (forall es s, indentBounds es -> indentBounds (sel_insertText s es)) ->
  (forall es b, indentBounds es -> indentBounds (sel_deleteCharacter b es)) ->
  indentBounds (_editorState e) ->
  exists e', dispatch ty payload e = Ok (true, e') /\
             indentBounds (_editorState e').
Proof.
  intros Hty Hsel Hab Hins Hdel Hb.
  pose proof Hab as (_ & Hn & _). pose proof (Hb _ _ Hn) as Hi.
  assert (forall fuel p e0, _editorState e0 = _editorState e ->
            exists e', execCommand (S (S fuel)) richTextRegistry "indentContent" p e0
                         = Ok (true, e') /\
                       indentBounds (_editorState e')) as Hindent.
  { intros fuel p e0 He0. eexists. split.
    - apply (exec_indentContent _ _ anchor focus blk n); by rewrite He0.
    - rewrite He0. destruct (canInsertTabOf n); [by apply Hins|].
      case_bool_decide; [done|]. apply indentBounds_writeBlock; [done|lia]. }
  assert (forall fuel p e0, _editorState e0 = _editorState e ->
            exists e', execCommand (S (S fuel)) richTextRegistry "outdentContent" p e0
                         = Ok (true, e') /\
                       indentBounds (_editorState e')) as Houtdent.
  { intros fuel p e0 He0. eexists. split.
    - apply (exec_outdentContent _ _ anchor focus blk n); by rewrite He0.
    - rewrite He0. destruct (canInsertTabOf n).
      + case_bool_decide; [by apply Hdel|done].
      + case_bool_decide; [done|]. apply indentBounds_writeBlock; [done|lia]. }
  destruct Hty as [-> | [-> | (shift & -> & [-> | ->])]]; unfold dispatch.
  - by apply Hindent.
  - by apply Houtdent.
  - rewrite exec_keyTab by (by rewrite Hsel).
    destruct shift.
    + destruct (Houtdent 1%nat PUndefined
                  (after (_editorState e)
                     [EExecCommand "keyTab" (PKeyboardEvent true);
                      EPreventDefault] e) eq_refl) as (e' & Hrun & Hb').
      rewrite Hrun. by exists e'.
    + destruct (Hindent 1%nat PUndefined
                  (after (_editorState e)
                     [EExecCommand "keyTab" (PKeyboardEvent false);
                      EPreventDefault] e) eq_refl) as (e' & Hrun & Hb').
      rewrite Hrun. by exists e'.
  - rewrite (exec_keyBackspace _ _ anchor focus blk n) by done.
    destruct (isCollapsed anchor focus && bool_decide (offset anchor = 0)
              && bool_decide (__indent n > 0)).
    + destruct (Houtdent 1%nat PUndefined
                  (after (_editorState e)
                     [EExecCommand "keyBackspace" (PKeyboardEvent shift);
                      EPreventDefault] e) eq_refl) as (e' & Hrun & Hb').
      rewrite Hrun. by exists e'.
    + rewrite exec_deleteCharacter by (simpl; by rewrite Hsel).
      eexists. split; [done|]. simpl. by apply Hdel.
Qed.

(** X15.  In a block that takes no literal tabs and whose indent is
    within 0 and 10, [indentContent] followed by [outdentContent]
    restores the editor state, except at indent 10, where the pair ends
    at 9; [outdentContent] followed by [indentContent] restores it,
    except at indent 0, where the pair ends at 1. *)
Theorem indent_outdent_round_trip e anchor focus blk n p q :
  _selection (_editorState e) = Some (RangeSelection anchor focus) ->
  anchorBlock (_editorState e) anchor blk n ->
  canInsertTabOf n = false ->
  0 <= __indent n <= 10 ->
  (exists e1 e2,
     dispatch "indentContent" p e = Ok (true, e1) /\
     dispatch "outdentContent" q e1 = Ok (true, e2) /\
     _editorState e2 =
       if bool_decide (__indent n = 10)
       then writeBlock blk (set_indent 9 n) (_editorState e)
       else _editorState e) /\
  (exists e1 e2,
     dispatch "outdentContent" p e = Ok (true, e1) /\
     dispatch "indentContent" q e1 = Ok (true, e2) /\
     _editorState e2 =
       if bool_decide (__indent n = 0)
       then writeBlock blk (set_indent 1 n) (_editorState e)
       else _editorState e).
Proof.
  intros Hsel Hab Htab Hi. pose proof Hab as (_ & Hn & _).
  assert (canInsertTabOf (set_indent (__indent n + 1) n) = false) as Htab1 by done.
  assert (canInsertTabOf (set_indent (__indent n - 1) n) = false) as Htab2 by done.
  split.
  - unfold dispatch.
    rewrite (exec_indentContent _ _ anchor focus blk n) by done. rewrite Htab.
    case_bool_decide as Hten.
    + do 2 eexists. split; [done|].
      rewrite (exec_outdentContent _ _ anchor focus blk n) by done.
      rewrite Htab. rewrite bool_decide_eq_false_2 by lia.
      split; [done|]. simpl. by rewrite Hten.
    + do 2 eexists. split; [done|].
      rewrite (exec_outdentContent _ _ anchor focus blk
                 (set_indent (__indent n + 1) n));
        [|done|by apply anchorBlock_set_indent].
      rewrite Htab1. simpl. rewrite bool_decide_eq_false_2 by lia.
      split; [done|]. simpl.
      replace (__indent n + 1 - 1) with (__indent n) by lia.
      by apply writeBlock_back.
  - unfold dispatch.
    rewrite (exec_outdentContent _ _ anchor focus blk n) by done. rewrite Htab.
    case_bool_decide as Hzero.
    + do 2 eexists. split; [done|].
      rewrite (exec_indentContent _ _ anchor focus blk n) by done.
      rewrite Htab. rewrite bool_decide_eq_false_2 by lia.
      split; [done|]. simpl. by rewrite Hzero.
    + do 2 eexists. split; [done|].
      rewrite (exec_indentContent _ _ anchor focus blk
                 (set_indent (__indent n - 1) n));
        [|done|by apply anchorBlock_set_indent].
      rewrite Htab2. simpl. rewrite bool_decide_eq_false_2 by lia.
      split; [done|]. simpl.
      replace (__indent n - 1 + 1) with (__indent n) by lia.
      by apply writeBlock_back.
Qed.

End Indentation.

(** ** Initialisation, composed *)

Section Startup.
Context `{Collaborators}.

Arguments execCommand : simpl never.

(** X16.  Default initialisation is idempotent on the document: after one
    [initializeEditor] without an initial state, on a root whose children
    resolve, a second one changes nothing but the record of its update. *)
Theorem initializeEditor_twice e rn :
  nodes e !! RootKey = Some rn ->
  isElementClass (__class rn) = true ->
  (forall c, c ∈ __children rn -> is_Some (nodes e !! c)) ->
  exists e1,
    initializeEditor InitUndefined e = Ok (tt, e1) /\
    initializeEditor InitUndefined e1 =
      Ok (tt, after (_editorState e1) [EUpdate options_tag] e1).
Proof.
  intros Hroot Hel Hres. unfold nodes in *.
  destruct (__children rn) as [|c cs] eqn:Hcs.
  - unfold initializeEditor, append, removeFromParent, createParagraphNode,
      select.
    run. rewrite ?Hcs. simpl.
    destruct (bool_decide (_selection (_editorState e) ≠ None) || _hasFocus e);
      run; (eexists; split; [done|]); by run.
  - destruct (Hres c) as [cn Hcn]; [left|].
    unfold initializeEditor. run. rewrite ?Hcs. run.
    eexists; split; [done|]. run. rewrite ?Hcs. by run.
Qed.

(** X17.  Registration with default initialisation makes a focused empty
    editor ready for input: the caret sits in the new paragraph, so text
    insertion is handled, and the Tab key raises the indent of that
    paragraph from 0 to 1. *)
Theorem fresh_editor_accepts_input e rn :
  nodes e !! RootKey = Some rn ->
  isElementClass (__class rn) = true ->
  __children rn = [] ->
  _hasFocus e = true ->
  let para := GenKey (_keyCounter e) in
  exists e1,
    registerRichText [] InitUndefined e = Ok (richTextRegistry, e1) /\
    (forall s,
       dispatch "insertText" (PString s) e1 =
         Ok (true, after (sel_insertText s (_editorState e1))
                         [EExecCommand "insertText" (PString s);
                          ESelInsertText s] e1)) /\
    indentOf (_editorState e1) para = Some 0 /\
    exists e2,
      dispatch "keyTab" (PKeyboardEvent false) e1 = Ok (true, e2) /\
      indentOf (_editorState e2) para = Some 1.
Proof.
  intros Hroot Hel Hcs Hfocus. simpl. unfold nodes in *.
  set (para := GenKey (_keyCounter e)).
  set (caret := mkPoint para 0 element).
  set (pn := mkNode ParagraphNode (Some RootKey) [] EmptyString 0 None EmptyString).
  set (es1 := mkEditorState
                (<[RootKey := set_children [para] rn]>
                   (<[para := pn]>
                      (<[para := newNode ParagraphNode]> (_nodeMap (_editorState e)))))
                (Some (RangeSelection caret caret))).
  exists (mkEditor es1 (_keyCounter e + 1)%N (_hasFocus e)
                   (_trace e ++ [EUpdate options_tag])).
  assert (anchorBlock es1 caret para pn) as Hab.
  { unfold anchorBlock, blockOf, es1. simpl.
    rewrite !lookup_insert_ne by done. by rewrite !lookup_insert_eq. }
  split; [|split; [|split]].
  - unfold registerRichText, initializeEditor, append, removeFromParent,
      createParagraphNode, select.
    run. rewrite ?Hcs, Hfocus, orb_true_r. by run.
  - intros s. unfold dispatch. by rewrite exec_insertText_string.
  - unfold indentOf, es1. simpl.
    rewrite lookup_insert_ne by done. by rewrite lookup_insert_eq.
  - unfold dispatch. rewrite exec_keyTab by done.
    rewrite (exec_indentContent _ _ caret caret para pn) by done.
    eexists. split; [done|]. simpl.
    unfold indentOf, writeBlock. simpl. by rewrite lookup_insert_eq.
Qed.

End Startup.

(** ** Headings and quotes in the DOM *)

Section Conversion.

Lemma headingTagOf_tagString tag : headingTagOf (tagString tag) = Some tag.
Proof. by destruct tag. Qed.

Lemma headingTagOf_Some s tag : headingTagOf s = Some tag -> s = tagString tag.
Proof.
  unfold headingTagOf.
  repeat match goal with
         | |- context [String.eqb s ?t] =>
             destruct (String.eqb_spec s t) as [->|_]; [by intros [= <-]|]
         end.
  done.
Qed.

(** X18.  [convertHeadingElement] recognises exactly the tag names h1 to
    h5, in any letter case: for such a name it creates one detached
    heading of that level under a fresh key and returns it; for every
    other name, h6 included, it returns no node and leaves the editor as
    it is. *)
Theorem convertHeadingElement_recognises_h1_to_h5 domNodeName e :
  (forall tag, toLowerCase domNodeName = tagString tag ->
     convertHeadingElement domNodeName e =
       Ok (Some (GenKey (_keyCounter e)),
           mkEditor
             (mkEditorState
                (<[GenKey (_keyCounter e) := newNode (HeadingNode tag)]> (nodes e))
                (_selection (_editorState e)))
             (_keyCounter e + 1)%N (_hasFocus e) (_trace e))) /\
  ((forall tag, toLowerCase domNodeName <> tagString tag) ->
     convertHeadingElement domNodeName e = Ok (None, e)).
Proof.
  unfold convertHeadingElement. split.
  - intros tag ->. by rewrite headingTagOf_tagString.
  - intros Hno.
    destruct (headingTagOf (toLowerCase domNodeName)) as [tag|] eqn:Htag; [|done].
    by destruct (Hno tag (headingTagOf_Some _ _ Htag)).
Qed.

(** X19.  What a heading renders converts back to its level: the element
    [createDOM] makes for a heading carries the heading's tag, with the
    theme's class name for that tag when the theme has heading classes
    and with no class otherwise, and [convertHeadingElement] on that tag
    name, in any letter case, gives a heading with the same tag. *)
Theorem heading_createDOM_converts_back tag theme domNodeName e :
  toLowerCase domNodeName =
    toLowerCase (tagName (HeadingNode_createDOM tag theme)) ->
  tagName (HeadingNode_createDOM tag theme) = tagString tag /\
  classList (HeadingNode_createDOM tag theme) =
    match theme_heading theme with
    | Some classNames =>
        match classNames tag with Some c => [c] | None => [] end
    | None => []
    end /\
  exists k e',
    convertHeadingElement domNodeName e = Ok (Some k, e') /\
    HeadingNode_getTag <$> nodes e' !! k = Some (Some tag).
Proof.
  intros Hname.
  assert (tagName (HeadingNode_createDOM tag theme) = tagString tag) as Htag.
  { unfold HeadingNode_createDOM. by destruct (theme_heading theme). }
  split; [done|]. split.
  - unfold HeadingNode_createDOM.
    destruct (theme_heading theme) as [classNames|]; [|done]. simpl.
    by destruct (classNames tag).
  - rewrite Htag in Hname.
    assert (toLowerCase (tagString tag) = tagString tag) as Hlow by (by destruct tag).
    rewrite Hlow in Hname. unfold convertHeadingElement.
    rewrite Hname, headingTagOf_tagString. do 2 eexists. split; [done|].
    unfold nodes. simpl. by rewrite lookup_insert_eq.
Qed.

Ltac with_tag t :=
  exists t; do 2 eexists; (split; [reflexivity|]); (split; [reflexivity|]);
  unfold nodes; simpl; by rewrite lookup_insert_eq.

(** X20.  [HeadingNode.convertDOM] offers a conversion for h1 to h5 and
    for no other tag, each at priority 0, and the conversion offered for
    a tag creates a heading of exactly that tag. *)
Theorem convertDOM_levels_match e :
  (forall tag, exists c,
     (tagString tag, c) ∈ HeadingNode_convertDOM) /\
  (forall name c, (name, c) ∈ HeadingNode_convertDOM ->
     priority c = 0%nat /\
     exists tag k e',
       name = tagString tag /\
       conversion c name e = Ok (Some k, e') /\
       HeadingNode_getTag <$> nodes e' !! k = Some (Some tag)).
Proof.
  split.
  - intros tag. exists (mkDOMConversion convertHeadingElement 0).
    unfold HeadingNode_convertDOM.
    destruct tag;
      repeat first [apply list_elem_of_here | apply list_elem_of_further].
  - intros name c Hin. unfold HeadingNode_convertDOM in Hin.
    repeat (apply elem_of_cons in Hin as [Heq|Hin];
            [injection Heq as -> ->; (split; [done|]);
             first [with_tag h1 | with_tag h2 | with_tag h3 | with_tag h4
                   | with_tag h5]|]).
    by apply elem_of_nil in Hin.
Qed.

End Conversion.

(** ** The tree invariant under the node methods *)

Section TreeKept.

(** What [insertNewAfter] leaves, with the key counter. *)
Lemma insertNewAfter_result e this n p :
  TreeInvariant (nodes e) -> keysBelowCounter e ->
  nodes e !! this = Some n -> isQuoteOrHeading (__class n) = true ->
  __parent n = Some p ->
  exists pn l1 l2 e',
    insertNewAfterOf (__class n) this e = Ok (GenKey (_keyCounter e), e') /\
    nodes e !! p = Some pn /\ __children pn = l1 ++ this :: l2 /\
    nodes e' !! p =
      Some (set_children (l1 ++ this :: GenKey (_keyCounter e) :: l2) pn) /\
    nodes e' !! GenKey (_keyCounter e) =
      Some (mkNode ParagraphNode (Some p) [] EmptyString 0 (__dir n) EmptyString) /\
    (forall q, q ≠ p -> q ≠ GenKey (_keyCounter e) ->
               nodes e' !! q = nodes e !! q) /\
    _keyCounter e' = (_keyCounter e + 1)%N.
Proof.
  intros Hinv Hkeys Hn Hcls Hp.
  pose proof (fresh_key _ Hkeys) as Hfresh.
  remember (GenKey (_keyCounter e)) as para eqn:Hpara.
  destruct (attached_split _ _ _ _ Hinv Hn Hp)
    as (pn & l1 & l2 & Hpn & Hl & Hl1 & Hl2).
  assert (para ≠ this) as Hpt by congruence.
  assert (para ≠ p) as Hpp by congruence.
  assert (isElementClass (__class n) = true) as Hel by (by destruct (__class n)).
  exists pn, l1, l2.
  assert (forall f,
    f = QuoteNode_insertNewAfter \/ f = HeadingNode_insertNewAfter ->
    exists e', f this e = Ok (para, e') /\
      nodes e' !! p = Some (set_children (l1 ++ this :: para :: l2) pn) /\
      nodes e' !! para =
        Some (mkNode ParagraphNode (Some p) [] EmptyString 0 (__dir n) EmptyString) /\
      (forall q, q ≠ p -> q ≠ para -> nodes e' !! q = nodes e !! q) /\
      _keyCounter e' = (_keyCounter e + 1)%N) as Hboth.
  { intros f Hf.
    assert (f this e =
      (newBlock <- createParagraphNode ;;
       direction <- getDirection this ;;
       setDirection newBlock direction ;;;
       insertAfter this newBlock ;;;
       ret newBlock) e) as -> by (by destruct Hf as [-> | ->]).
    unfold nodes in *.
    unfold createParagraphNode. repeat first [rewrite <- Hpara | step].
    erewrite (insertAfter_inserts _ this n p pn l1 l2 para); unfold nodes; simpl;
      try done; try (by maps).
    eexists. split; [done|]. simpl.
    repeat split.
    - by maps.
    - by maps.
    - intros q Hq1 Hq2. by maps. }
  destruct (__class n); try done; simpl.
  - destruct (Hboth QuoteNode_insertNewAfter) as (e' & ? & ? & ? & ? & ?);
      [by left|]. by exists e'.
  - destruct (Hboth HeadingNode_insertNewAfter) as (e' & ? & ? & ? & ? & ?);
      [by right|]. by exists e'.
Qed.

(** X21.  [insertNewAfter] keeps the tree well-formed: on a quote or
    heading attached in a tree that satisfies the invariant, it succeeds
    and the resulting node map satisfies the invariant again, with the
    key counter ahead of every key. *)
Theorem insertNewAfter_keeps_tree e this n p :
  TreeInvariant (nodes e) -> keysBelowCounter e ->
  nodes e !! this = Some n -> isQuoteOrHeading (__class n) = true ->
  __parent n = Some p ->
  exists newBlock e',
    insertNewAfterOf (__class n) this e = Ok (newBlock, e') /\
    TreeInvariant (nodes e') /\ keysBelowCounter e'.
Proof.
  intros Hinv Hkeys Hn Hcls Hp.
  pose proof (fresh_key _ Hkeys) as Hfresh.
  destruct (insertNewAfter_result e this n p Hinv Hkeys Hn Hcls Hp)
    as (pn & l1 & l2 & e' & Hrun & Hpn & Hl & Pp & Ppara & Prest & Hkc).
  remember (GenKey (_keyCounter e)) as para eqn:Hpara.
  exists para, e'. split; [done|].
  assert (para ≠ p) as Hpp by congruence.
  assert (forall k n', nodes e' !! k = Some n' ->
            (k = para /\
             n' = mkNode ParagraphNode (Some p) [] EmptyString 0 (__dir n) EmptyString) \/
            (k = p /\ n' = set_children (l1 ++ this :: para :: l2) pn) \/
            (k ≠ para /\ k ≠ p /\ nodes e !! k = Some n')) as Hcases.
  { intros k n' Hk.
    destruct (decide (k = para)) as [->|?]; [left; split; congruence|].
    destruct (decide (k = p)) as [->|?]; [right; left; split; congruence|].
    right; right. rewrite <- Prest by done. done. }
  assert (forall c cn, nodes e !! c = Some cn ->
            exists cn', nodes e' !! c = Some cn' /\ __parent cn' = __parent cn)
    as Hkeep.
  { intros c cn Hc. assert (c ≠ para) by congruence.
    destruct (decide (c = p)) as [->|?].
    - eexists. split; [exact Pp|]. simpl. congruence.
    - exists cn. by rewrite Prest. }
  assert (forall q qn k, nodes e !! q = Some qn -> k ∈ __children qn ->
            exists qn', nodes e' !! q = Some qn' /\ k ∈ __children qn') as Hgrow.
  { intros q qn k Hq Hk. assert (q ≠ para) by congruence.
    destruct (decide (q = p)) as [->|?].
    - eexists. split; [exact Pp|]. simpl.
      assert (qn = pn) as -> by congruence. rewrite Hl in Hk.
      rewrite elem_of_app, !elem_of_cons in *. tauto.
    - exists qn. by rewrite Prest. }
  assert (forall k kn, nodes e !! k = Some kn -> para ∉ __children kn) as Hnotin.
  { intros k kn Hk Hin.
    destruct (tree_child_parent _ Hinv _ _ _ Hk Hin) as (cn & Hcn & _).
    congruence. }
  split; [split|].
  - intros k n' c Hk Hc.
    destruct (Hcases k n' Hk) as [[-> ->]|[[-> ->]|(? & ? & Hold)]].
    + by apply elem_of_nil in Hc.
    + simpl in Hc.
      destruct (decide (c = para)) as [->|Hcp]; [by eexists|].
      assert (c ∈ __children pn) as Hc'.
      { rewrite Hl. rewrite elem_of_app, !elem_of_cons in *. tauto. }
      destruct (tree_child_parent _ Hinv _ _ _ Hpn Hc') as (cn & Hcn & Hcpar).
      destruct (Hkeep c cn Hcn) as (cn' & ? & ?). exists cn'. split; congruence.
    + destruct (tree_child_parent _ Hinv _ _ _ Hold Hc) as (cn & Hcn & Hcpar).
      destruct (Hkeep c cn Hcn) as (cn' & ? & ?). exists cn'. split; congruence.
  - intros k n' q Hk Hq.
    destruct (Hcases k n' Hk) as [[-> ->]|[[-> ->]|(? & ? & Hold)]].
    + simpl in Hq. injection Hq as <-. eexists. split; [exact Pp|]. simpl.
      rewrite elem_of_app, !elem_of_cons. tauto.
    + simpl in Hq.
      destruct (tree_parent_child _ Hinv _ _ _ Hpn Hq) as (qn & Hqn & Hin).
      by apply (Hgrow q qn).
    + destruct (tree_parent_child _ Hinv _ _ _ Hold Hq) as (qn & Hqn & Hin).
      by apply (Hgrow q qn).
  - intros k n' Hk.
    destruct (Hcases k n' Hk) as [[-> ->]|[[-> ->]|(? & ? & Hold)]].
    + apply NoDup_nil_2.
    + simpl. pose proof (tree_nodup _ Hinv _ _ Hpn) as Hnd.
      pose proof (Hnotin _ _ Hpn) as Hpar. rewrite Hl in Hnd, Hpar.
      apply NoDup_app in Hnd as (Hn1 & Hdisj & Hn2).
      apply NoDup_cons in Hn2 as [Ht2 Hn2].
      apply not_elem_of_app in Hpar as [Hp1 Hp2].
      apply not_elem_of_cons in Hp2 as [Hpt Hp2].
      apply NoDup_app. split; [done|]. split.
      * intros x Hx Hin. apply (Hdisj x Hx).
        apply elem_of_cons in Hin as [->|Hin]; [left|].
        apply elem_of_cons in Hin as [->|Hin]; [done|by right].
      * apply NoDup_cons. split.
        { apply not_elem_of_cons. split; [congruence|done]. }
        by apply NoDup_cons.
    + by apply (tree_nodup _ Hinv k).
  - destruct (tree_acyclic _ Hinv) as [depth Hd].
    exists (fun k => if decide (k = para) then S (depth p) else depth k).
    intros k n' q Hk Hq.
    destruct (Hcases k n' Hk) as [[-> ->]|[[-> ->]|(? & ? & Hold)]].
    + simpl in Hq. injection Hq as <-.
      destruct (decide (para = para)); [|done].
      destruct (decide (p = para)); [congruence|]. lia.
    + simpl in Hq.
      destruct (tree_parent_child _ Hinv _ _ _ Hpn Hq) as (qn & Hqn & _).
      rewrite !decide_False by congruence. by apply (Hd p pn).
    + destruct (tree_parent_child _ Hinv _ _ _ Hold Hq) as (qn & Hqn & _).
      rewrite !decide_False by congruence. by apply (Hd k n').
  - intros i [n' Hi]. rewrite Hkc.
    destruct (Hcases _ _ Hi) as [[Heq _]|[[Heq _]|(_ & _ & Hold)]].
    + rewrite Hpara in Heq. injection Heq as ->. lia.
    + assert (i < _keyCounter e)%N; [|lia]. apply Hkeys. rewrite Heq. eauto.
    + assert (i < _keyCounter e)%N; [|lia]. apply Hkeys. eauto.
Qed.


(** What [collapseAtStart] leaves, with the key counter. *)
Lemma collapseAtStart_result e this n p :
  TreeInvariant (nodes e) -> keysBelowCounter e ->
  nodes e !! this = Some n -> isQuoteOrHeading (__class n) = true ->
  __parent n = Some p ->
  let para := GenKey (_keyCounter e) in
  nodes e !! para = None /\
  exists pn l1 l2 e',
    collapseAtStartOf (__class n) this e = Ok (true, e') /\
    nodes e !! p = Some pn /\ __children pn = l1 ++ this :: l2 /\
    nodes e' !! para =
      Some (mkNode ParagraphNode (Some p) (__children n) EmptyString 0 None EmptyString) /\
    nodes e' !! p = Some (set_children (l1 ++ para :: l2) pn) /\
    nodes e' !! this = Some (set_parent None (set_children [] n)) /\
    (forall c cn, c ∈ __children n -> nodes e !! c = Some cn ->
                  nodes e' !! c = Some (set_parent (Some para) cn)) /\
    (forall q, q ≠ this -> q ≠ para -> q ≠ p -> q ∉ __children n ->
               nodes e' !! q = nodes e !! q) /\
    _keyCounter e' = (_keyCounter e + 1)%N.
Proof.
  intros Hinv Hkeys Hn Hcls Hp.
  pose proof (fresh_key _ Hkeys) as Hfresh.
  simpl. remember (GenKey (_keyCounter e)) as para eqn:Hpara. split; [done|].
  destruct (attached_split _ _ _ _ Hinv Hn Hp)
    as (pn & l1 & l2 & Hpn & Hl & Hl1 & Hl2).
  destruct (tree_no_loops _ _ _ _ Hinv Hn Hp) as (Hpt & Htc & Hpc).
  assert (para ≠ this) as Hpat by congruence.
  assert (para ≠ p) as Hpap by congruence.
  assert (isElementClass (__class n) = true) as Hel by (by destruct (__class n)).
  assert (forall c, c ∈ __children n ->
            exists cn, nodes e !! c = Some cn /\ __parent cn = Some this) as Hkids.
  { intros c Hc. exact (tree_child_parent _ Hinv _ _ _ Hn Hc). }
  assert (para ∉ __children n) as Hpac.
  { intros Hin. destruct (Hkids _ Hin) as (cn & Hcn & _). congruence. }
  pose proof (tree_nodup _ Hinv _ _ Hn) as Hnd.
  exists pn, l1, l2.
  set (e1 := mkEditor
               (mkEditorState (<[para := newNode ParagraphNode]> (nodes e))
                              (_selection (_editorState e)))
               (_keyCounter e + 1)%N (_hasFocus e) (_trace e)).
  assert (Moving (nodes e) this para n [] (__children n) (nodes e1)) as Hstart.
  { unfold Moving, e1, nodes. simpl. split; [|split; [|split]].
    - rewrite lookup_insert_ne by done. unfold nodes in Hn. rewrite Hn.
      by destruct n.
    - by rewrite lookup_insert_eq.
    - intros c cn Hc. by apply elem_of_nil in Hc.
    - intros q _ Hq _. by rewrite lookup_insert_ne. }
  destruct (forEach_append (nodes e) this para n Hn Hfresh Hkids Hnd Htc
              (__children n) [] e1 eq_refl Hstart) as (m' & Hloop & Hm').
  simpl in Hm'. destruct Hm' as (Mthis & Mpara & Mkids & Mrest).
  assert (m' !! p = Some pn) as Mp by (by rewrite Mrest).
  assert (forall f,
            f = QuoteNode_collapseAtStart \/ f = HeadingNode_collapseAtStart ->
            f this e =
              Ok (true, with_nodeMap
                (<[this := set_parent None (set_children [] n)]>
                 (<[p := set_children (l1 ++ para :: l2) pn]>
                  (<[para := set_parent (Some p)
                               (set_children (__children n) (newNode ParagraphNode))]>
                   (<[p := set_children (l1 ++ para :: this :: l2) pn]> m'))))
                e1)) as Hrun.
  { intros f Hf.
    assert (f this e =
      (paragraph <- createParagraphNode ;;
       children <- getChildren this ;;
       forEach children (fun child => append paragraph child) ;;;
       replace this paragraph ;;;
       ret true) e) as -> by (by destruct Hf as [-> | ->]).
    unfold bind at 1. unfold createParagraphNode. simpl. rewrite <- Hpara.
    fold e1. unfold bind at 1.
    assert (getChildren this e1 = Ok (__children n, e1)) as ->.
    { unfold getChildren, getElement, getLatest, bind, ret, get, e1, nodes.
      simpl. rewrite lookup_insert_ne by done. unfold nodes in Hn.
      rewrite Hn. simpl. rewrite Hel. simpl.
      rewrite filter_resolving; [done|].
      intros c Hc. destruct (Hkids c Hc) as (cn & Hcn & _).
      rewrite lookup_insert_ne by congruence. unfold nodes in Hcn.
      by rewrite Hcn. }
    unfold bind at 1. rewrite Hloop.
    unfold bind at 1.
    rewrite (replace_swaps _ this (set_children [] n) p pn l1 l2 para
               (set_children (__children n) (newNode ParagraphNode)));
      rewrite ?nodes_with_nodeMap; try done. }
  eexists. split.
  { destruct (__class n); try done; simpl; apply Hrun; auto. }
  rewrite nodes_with_nodeMap.
  assert (forall c, c ∈ __children n -> c ≠ this /\ c ≠ para /\ c ≠ p) as Hne.
  { intros c Hc. repeat split; intros ->; done. }
  split; [done|]. split; [done|]. split; [by maps|]. split; [by maps|].
  split; [by maps|]. split.
  { intros c cn Hc Hcn. destruct (Hne c Hc) as (? & ? & ?). maps.
    by apply Mkids. }
  split.
  { intros q Hq1 Hq2 Hq3 Hq4. maps. by apply Mrest. }
  done.
Qed.

(** X22.  [collapseAtStart] keeps the tree well-formed: on a quote or
    heading attached in a tree that satisfies the invariant, it succeeds
    with [true] and the resulting node map satisfies the invariant again,
    with the key counter ahead of every key. *)
Theorem collapseAtStart_keeps_tree e this n p :
  TreeInvariant (nodes e) -> keysBelowCounter e ->
  nodes e !! this = Some n -> isQuoteOrHeading (__class n) = true ->
  __parent n = Some p ->
  exists e',
    collapseAtStartOf (__class n) this e = Ok (true, e') /\
    TreeInvariant (nodes e') /\ keysBelowCounter e'.
Proof.
  intros Hinv Hkeys Hn Hcls Hp.
  destruct (collapseAtStart_result e this n p Hinv Hkeys Hn Hcls Hp)
    as (Hfresh & pn & l1 & l2 & e' & Hrun & Hpn & Hl & Ppara & Pp & Pthis
        & Pkids & Prest & Hkc).
  remember (GenKey (_keyCounter e)) as para eqn:Hpara.
  exists e'. split; [done|].
  destruct (attached_split _ _ _ _ Hinv Hn Hp)
    as (pn' & l1' & l2' & Hpn' & Hl' & _).
  destruct (tree_no_loops _ _ _ _ Hinv Hn Hp) as (Hpt & Htc & Hpc).
  assert (para ≠ this) as Hpat by congruence.
  assert (para ≠ p) as Hpap by congruence.
  assert (forall c, c ∈ __children n ->
            exists cn, nodes e !! c = Some cn /\ __parent cn = Some this) as Hkids.
  { intros c Hc. exact (tree_child_parent _ Hinv _ _ _ Hn Hc). }
  assert (forall k kn, nodes e !! k = Some kn -> para ∉ __children kn) as Hnotin.
  { intros k kn Hk Hin.
    destruct (tree_child_parent _ Hinv _ _ _ Hk Hin) as (cn & Hcn & _).
    congruence. }
  pose proof (tree_nodup _ Hinv _ _ Hpn) as Hndp. rewrite Hl in Hndp.
  assert ((this ∉ l1) /\ (this ∉ l2)) as [Hl1 Hl2].
  { apply NoDup_app in Hndp as (_ & Hd & Hnd2).
    apply NoDup_cons in Hnd2 as [? _]. split; [|done].
    intros Hin. apply (Hd _ Hin). left. }
  assert (forall k n', nodes e' !! k = Some n' ->
            (k = this /\ n' = set_parent None (set_children [] n)) \/
            (k = para /\
             n' = mkNode ParagraphNode (Some p) (__children n) EmptyString 0 None
                         EmptyString) \/
            (k = p /\ n' = set_children (l1 ++ para :: l2) pn) \/
            (k ∈ __children n /\ exists cn, nodes e !! k = Some cn /\
               __parent cn = Some this /\ n' = set_parent (Some para) cn) \/
            (k ≠ this /\ k ≠ para /\ k ≠ p /\ (k ∉ __children n) /\
             nodes e !! k = Some n')) as Hcases.
  { intros k n' Hk.
    destruct (decide (k = this)) as [->|?]; [left; split; congruence|].
    destruct (decide (k = para)) as [->|?]; [right; left; split; congruence|].
    destruct (decide (k = p)) as [->|?];
      [right; right; left; split; congruence|].
    destruct (decide (k ∈ __children n)) as [Hin|Hin].
    - right; right; right; left. split; [done|].
      destruct (Hkids k Hin) as (cn & Hcn & Hcp). exists cn.
      rewrite (Pkids k cn Hin Hcn) in Hk. repeat split; congruence.
    - right; right; right; right. rewrite <- Prest by done. done. }
  (* a node other than [this] whose parent is not [this] keeps its parent *)
  assert (forall c cn k, nodes e !! c = Some cn -> __parent cn = Some k ->
            c ≠ this -> k ≠ this ->
            exists cn', nodes e' !! c = Some cn' /\ __parent cn' = Some k)
    as Hkeep.
  { intros c cn k Hc Hck Hct Hkt. assert (c ≠ para) by congruence.
    assert (c ∉ __children n) as Hcc.
    { intros Hin. destruct (Hkids c Hin) as (cn0 & ? & ?). congruence. }
    destruct (decide (c = p)) as [->|?].
    - eexists. split; [exact Pp|]. simpl. congruence.
    - exists cn. by rewrite Prest. }
  (* a node that stays below its parent is still in its parent's list *)
  assert (forall k n0 q, nodes e !! k = Some n0 -> __parent n0 = Some q ->
            k ≠ this -> (k ∉ __children n) ->
            exists qn', nodes e' !! q = Some qn' /\ k ∈ __children qn') as Hstay.
  { intros k n0 q Hk Hq Hkt Hknc.
    destruct (tree_parent_child _ Hinv _ _ _ Hk Hq) as (qn & Hqn & Hin).
    assert (q ≠ para) by congruence.
    assert (q ≠ this) by (intros ->; congruence).
    destruct (decide (q = p)) as [->|?].
    - eexists. split; [exact Pp|]. simpl.
      assert (qn = pn) as -> by congruence. rewrite Hl in Hin.
      rewrite elem_of_app, !elem_of_cons in *. tauto.
    - destruct (decide (q ∈ __children n)) as [Hqc|Hqc].
      + eexists. split; [exact (Pkids q qn Hqc Hqn)|]. done.
      + exists qn. by rewrite Prest. }
  split; [split|].
  - intros k n' c Hk Hc.
    destruct (Hcases k n' Hk)
      as [[-> ->]|[[-> ->]|[[-> ->]|[(Hkin & cn & Hcn & Hcp & ->)
                                     |(? & ? & ? & ? & Hold)]]]].
    + by apply elem_of_nil in Hc.
    + simpl in Hc. destruct (Hkids c Hc) as (cn & Hcn & _).
      eexists. split; [exact (Pkids c cn Hc Hcn)|]. done.
    + simpl in Hc.
      destruct (decide (c = para)) as [->|Hcp]; [by eexists|].
      assert (c ∈ __children pn /\ c ≠ this) as [Hc' Hct].
      { rewrite Hl. rewrite elem_of_app, !elem_of_cons in *.
        destruct Hc as [?|[?|?]]; [| done |]; split; try tauto;
          intros ->; done. }
      destruct (tree_child_parent _ Hinv _ _ _ Hpn Hc') as (cn & Hcn & Hcpar).
      by apply (Hkeep c cn p).
    + simpl in Hc.
      destruct (tree_child_parent _ Hinv _ _ _ Hcn Hc) as (dn & Hdn & Hdp).
      assert (k ≠ this) by (intros ->; done).
      apply (Hkeep c dn k); try done.
      intros ->. assert (p = k) by congruence. congruence.
    + destruct (tree_child_parent _ Hinv _ _ _ Hold Hc) as (dn & Hdn & Hdp).
      apply (Hkeep c dn k); try done.
      intros ->. assert (p = k) by congruence. congruence.
  - intros k n' q Hk Hq.
    destruct (Hcases k n' Hk)
      as [[-> ->]|[[-> ->]|[[-> ->]|[(Hkin & cn & Hcn & Hcp & ->)
                                     |(? & ? & ? & ? & Hold)]]]].
    + done.
    + simpl in Hq. injection Hq as <-. eexists. split; [exact Pp|]. simpl.
      rewrite elem_of_app, !elem_of_cons. tauto.
    + simpl in Hq. by apply (Hstay p pn q).
    + simpl in Hq. injection Hq as <-. eexists. split; [exact Ppara|]. done.
    + by apply (Hstay k n' q).
  - intros k n' Hk.
    destruct (Hcases k n' Hk)
      as [[-> ->]|[[-> ->]|[[-> ->]|[(Hkin & cn & Hcn & Hcp & ->)
                                     |(? & ? & ? & ? & Hold)]]]].
    + apply NoDup_nil_2.
    + simpl. exact (tree_nodup _ Hinv this n Hn).
    + simpl. pose proof (Hnotin _ _ Hpn) as Hpar. rewrite Hl in Hpar.
      apply NoDup_app in Hndp as (Hn1 & Hdisj & Hn2).
      apply NoDup_cons in Hn2 as [Ht2 Hn2].
      apply not_elem_of_app in Hpar as [Hp1 Hp2].
      apply not_elem_of_cons in Hp2 as [_ Hp2].
      apply NoDup_app. split; [done|]. split.
      * intros x Hx Hin.
        apply elem_of_cons in Hin as [->|Hin]; [done|].
        apply (Hdisj x Hx). by right.
      * by apply NoDup_cons.
    + simpl. exact (tree_nodup _ Hinv k cn Hcn).
    + exact (tree_nodup _ Hinv k n' Hold).
  - destruct (tree_acyclic _ Hinv) as [depth Hd].
    exists (fun k => if decide (k = para) then depth this else depth k).
    assert (forall k kn q, nodes e !! k = Some kn -> __parent kn = Some q ->
              q ≠ para) as Hqp.
    { intros k kn q Hk Hq.
      destruct (tree_parent_child _ Hinv _ _ _ Hk Hq) as (qn & Hqn & _).
      congruence. }
    intros k n' q Hk Hq.
    destruct (Hcases k n' Hk)
      as [[-> ->]|[[-> ->]|[[-> ->]|[(Hkin & cn & Hcn & Hcp & ->)
                                     |(? & ? & ? & ? & Hold)]]]].
    + done.
    + simpl in Hq. injection Hq as <-.
      destruct (decide (para = para)); [|done].
      destruct (decide (p = para)); [congruence|]. by apply (Hd this n).
    + simpl in Hq. pose proof (Hqp _ _ _ Hpn Hq).
      rewrite !decide_False by congruence. by apply (Hd p pn).
    + simpl in Hq. injection Hq as <-.
      destruct (decide (para = para)); [|done].
      destruct (decide (k = para)); [congruence|]. by apply (Hd k cn).
    + pose proof (Hqp _ _ _ Hold Hq).
      rewrite !decide_False by congruence. by apply (Hd k n').
  - intros i [n' Hi]. rewrite Hkc.
    destruct (decide (GenKey i = para)) as [Heq|Hne].
    { rewrite Hpara in Heq. injection Heq as ->. lia. }
    assert (is_Some (nodes e !! GenKey i)); [|assert (i < _keyCounter e)%N;
      [by apply Hkeys|lia]].
    destruct (Hcases _ _ Hi)
      as [[-> _]|[[Heq _]|[[-> _]|[(Hkin & cn & Hcn & _)
                                     |(? & ? & ? & ? & Hold)]]]]; eauto.
    done.
Qed.

End TreeKept.

(** ** Nested dispatch *)

Section Nesting.
Context `{Collaborators}.

Arguments execCommand : simpl never.

Lemma bind_agree {A B} (m1 m2 : M A) (k1 k2 : A -> M B) e :
  m1 e = m2 e -> (forall a e', k1 a e' = k2 a e') ->
  bind m1 k1 e = bind m2 k2 e.
Proof.
  intros Hm Hk. unfold bind. rewrite Hm.
  destruct (m2 e) as [[a e']|]; [apply Hk|done].
Qed.

(** Walks two runs of one listener body that differ in the dispatcher
    only, down to the dispatches. *)
Ltac same_run Hx :=
  repeat first
    [ reflexivity
    | apply bind_agree; [|intros]
    | progress cbv beta zeta
    | match goal with
      | |- ?lhs = _ =>
          lazymatch lhs with
          | (match ?x with _ => _ end) _ => destruct x
          end
      end
    | match goal with
      | |- context [if ?b then _ else _] => destruct b
      end
    | apply Hx; cbn;
      repeat first [apply list_elem_of_here | apply list_elem_of_further] ].

Lemma listener_calls ty l (exec1 exec2 : string -> Payload -> M bool)
    payload e :
  (ty, l) ∈ richTextListeners ->
  (forall t q e', t ∈ redispatches ty -> exec1 t q e' = exec2 t q e') ->
  l exec1 payload e = l exec2 payload e.
Proof.
  intros Hin Hx. unfold richTextListeners in Hin.
  repeat (apply elem_of_cons in Hin as [Heq|Hin];
          [injection Heq as -> ->|]);
    [..|by apply elem_of_nil in Hin].
  all: try reflexivity.
  all: autounfold with listeners; same_run Hx.
Qed.




(** X23.  A listener's result depends on the dispatcher only through the
    commands it re-dispatches: [indentContent] dispatches [insertText]
    only, [outdentContent] and [keyDelete] dispatch [deleteCharacter]
    only, [keyBackspace] dispatches [outdentContent] or
    [deleteCharacter], [keyEnter] dispatches [insertLineBreak] or
    [insertParagraph], [keyTab] dispatches [outdentContent] or
    [indentContent], and the other eighteen listeners dispatch nothing. *)
Theorem listeners_dispatch_only ty l
    (exec1 exec2 : string -> Payload -> M bool) payload e :
  (ty, l) ∈ richTextListeners ->
  (forall t q e', t ∈ redispatches ty -> exec1 t q e' = exec2 t q e') ->
  l exec1 payload e = l exec2 payload e.
Proof. apply listener_calls. Qed.


End Nesting.

(** ** The further properties on concrete documents *)

Lemma plain_edit_indentBounds from del ins caret es :
  indentBounds es -> indentBounds (plain_edit from del ins caret es).
Proof.
  intros Hb. unfold plain_edit.
  destruct (_selection es) as [[a f| |]|]; try done.
  destruct (_nodeMap es !! key a) as [n|] eqn:Hn; [|done].
  destruct (type a); try done.
  destruct (bool_decide (a = f) && (0 <=? from (offset a))%Z); [|done].
  intros k n' Hk. simpl in Hk.
  apply lookup_insert_Some in Hk as [[_ <-]|[_ Hk]]; simpl.
  - by apply (Hb (key a)).
  - by apply (Hb k).
Qed.

Lemma plainModel_insertText_bounds es s :
  indentBounds es -> indentBounds (@sel_insertText plainModel s es).
Proof. apply plain_edit_indentBounds. Qed.

Lemma plainModel_deleteCharacter_bounds es b :
  indentBounds es -> indentBounds (@sel_deleteCharacter plainModel b es).
Proof. destruct b; apply plain_edit_indentBounds. Qed.

Lemma sample_indentBounds cls indent txt sel :
  0 <= indent <= 10 ->
  indentBounds (_editorState (sampleEditor cls indent txt sel)).
Proof.
  intros Hi k n Hk. unfold sampleEditor, sampleNodes in Hk. simpl in Hk.
  repeat (apply lookup_insert_Some in Hk as [[_ <-]|[_ Hk]]; [simpl; lia|]).
  by rewrite lookup_empty in Hk.
Qed.

Lemma every_command_declines_witness :
  @dispatch plainModel "keyTab" (PKeyboardEvent false)
    (sampleEditor ParagraphNode 2 "hello" None) =
    Ok (false,
        after (_editorState (sampleEditor ParagraphNode 2 "hello" None))
              [EExecCommand "keyTab" (PKeyboardEvent false)]
              (sampleEditor ParagraphNode 2 "hello" None)).
Proof.
  eapply (@every_command_declines_without_selection plainModel);
    [registered|reflexivity].
Defined.

Lemma node_selection_witness :
  let e := sampleEditor ParagraphNode 2 "hello" (Some (NodeSelection [GenKey 1])) in
  @dispatch plainModel "click" PMouseEvent e =
    Ok (true, after (clearedSelection (_editorState e))
                    [EExecCommand "click" PMouseEvent; ESelClear] e) /\
  @dispatch plainModel "insertText" (PString "a") e =
    Ok (false, after (_editorState e) [EExecCommand "insertText" (PString "a")] e).
Proof.
  split.
  - eapply (@node_selection_only_click_handles plainModel _ "click");
      [registered|reflexivity].
  - eapply (@node_selection_only_click_handles plainModel _ "insertText");
      [registered|reflexivity].
Defined.

Lemma grid_selection_witness :
  let e := sampleEditor ParagraphNode 2 "hello"
             (Some (GridSelection (GenKey 1) (GenKey 2) (GenKey 2))) in
  @dispatch plainModel "keyTab" (PKeyboardEvent false) e =
    Ok (false,
        after (_editorState e) [EExecCommand "keyTab" (PKeyboardEvent false)] e).
Proof.
  eapply (@grid_selection_only_clipboard_handles plainModel _ "keyTab");
    [registered| |reflexivity].
  intros Hin.
  repeat (apply elem_of_cons in Hin as [Heq|Hin]; [discriminate|]).
  by apply elem_of_nil in Hin.
Defined.

Lemma keyEnter_witness :
  @dispatch plainModel "keyEnter" (PKeyboardEvent true) indentedParagraph =
    Ok (true,
        after (_editorState indentedParagraph)
              [EExecCommand "keyEnter" (PKeyboardEvent true); EPreventDefault;
               EExecCommand "insertLineBreak" PUndefined;
               ESelInsertLineBreak false] indentedParagraph).
Proof.
  exact (@keyEnter_line_break_or_paragraph plainModel indentedParagraph true
           eq_refl).
Defined.

Lemma keyDelete_witness :
  match @dispatch plainModel "keyDelete" (PKeyboardEvent false) indentedParagraph with
  | Ok (handled, e') =>
      handled = true /\
      indentOf (_editorState e') (GenKey 1) = Some 2 /\
      (__text <$> nodes e' !! GenKey 2) = Some "ello"
  | Throw _ => False
  end.
Proof.
  rewrite (@keyDelete_deletes_forward plainModel indentedParagraph false eq_refl).
  by vm_compute.
Defined.

Lemma delegating_commands_witness :
  @dispatch plainModel "deleteWord" (PBoolean true) indentedParagraph =
    Ok (true, after (_editorState indentedParagraph)
                    [EExecCommand "deleteWord" (PBoolean true);
                     ESelDeleteWord true] indentedParagraph).
Proof.
  exact (proj1 (@delegating_commands plainModel indentedParagraph true "bold"
                  eq_refl)).
Defined.

Lemma insertText_witness :
  (match @dispatch plainModel "insertText" (PInputEvent None (Some "a"))
           indentedParagraph with
   | Ok (handled, e') =>
       handled = true /\ (__text <$> nodes e' !! GenKey 2) = Some "ahello"
   | Throw _ => False
   end) /\
  outcome (@dispatch plainModel "insertText" (PInputEvent None None)
             indentedParagraph) =
    Ok (true, _editorState indentedParagraph).
Proof.
  destruct (@insertText_cases plainModel indentedParagraph eq_refl)
    as (_ & _ & Hdata & Hnone).
  split.
  - rewrite (Hdata "a") by discriminate. by vm_compute.
  - rewrite (Hnone None) by (by left). reflexivity.
Defined.

Lemma formatElement_witness :
  match @dispatch plainModel "formatElement" (PString "center") indentedParagraph with
  | Ok (handled, e') =>
      handled = true /\
      (__format <$> nodes e' !! GenKey 1) = Some "center" /\
      (__format <$> nodes e' !! GenKey 2) = Some EmptyString
  | Throw _ => False
  end.
Proof.
  rewrite (@formatElement_formats_block plainModel indentedParagraph
             (mkPoint (GenKey 2) 0 text) (mkPoint (GenKey 2) 0 text) (GenKey 1)
             (sampleBlock ParagraphNode 2) "center"
             eq_refl eq_refl eq_refl eq_refl).
  by vm_compute.
Defined.

Lemma arrow_keys_witness :
  @dispatch plainModel "keyArrowLeft" (PKeyboardEvent false) indentedParagraph =
    Ok (false,
        after (_editorState indentedParagraph)
              [EExecCommand "keyArrowLeft" (PKeyboardEvent false)]
              indentedParagraph).
Proof.
  exact (proj1 (@arrow_keys_override_on_demand plainModel indentedParagraph
                  false eq_refl)).
Defined.

Lemma escape_and_drag_witness :
  @dispatch plainModel "keyEscape" (PKeyboardEvent false) indentedParagraph =
    Ok (true,
        after (_editorState indentedParagraph)
              [EExecCommand "keyEscape" (PKeyboardEvent false); EBlur]
              indentedParagraph).
Proof.
  exact (proj1 (@escape_and_drag_leave_document plainModel indentedParagraph
                  false eq_refl)).
Defined.

Lemma copy_witness :
  @dispatch plainModel "copy" (PClipboardEvent (Some [])) indentedParagraph =
    Ok (true,
        after (_editorState indentedParagraph)
              [EExecCommand "copy" (PClipboardEvent (Some [])); EPreventDefault;
               EUpdate None; ESetData "text/plain" EmptyString]
              indentedParagraph).
Proof.
  exact (@copy_writes_and_keeps_document plainModel indentedParagraph (Some [])
           eq_refl).
Defined.

Lemma cut_witness :
  @dispatch plainModel "cut" (PClipboardEvent None) indentedParagraph =
    Ok (true,
        after (_editorState indentedParagraph)
              [EExecCommand "cut" (PClipboardEvent None); EPreventDefault;
               EUpdate None; EUpdate None; ESelRemoveText]
              indentedParagraph).
Proof.
  exact (@cut_copies_then_removes_range plainModel indentedParagraph None
           eq_refl).
Defined.

Lemma paste_witness :
  let e := sampleEditor ParagraphNode 2 "hello"
             (Some (GridSelection (GenKey 1) (GenKey 2) (GenKey 2))) in
  @dispatch plainModel "paste" (PClipboardEvent (Some [("text/plain", "x")])) e =
    Ok (true,
        after (_editorState e)
              [EExecCommand "paste" (PClipboardEvent (Some [("text/plain", "x")]));
               EPreventDefault; EUpdate None] e).
Proof.
  exact (@paste_inserts_on_range_only plainModel
           (sampleEditor ParagraphNode 2 "hello"
              (Some (GridSelection (GenKey 1) (GenKey 2) (GenKey 2))))
           (Some [("text/plain", "x")]) eq_refl).
Defined.

Lemma indent_bounds_witness :
  exists e',
    @dispatch plainModel "keyTab" (PKeyboardEvent false)
      (sampleEditor ParagraphNode 10 "hello" (caretAt 0)) = Ok (true, e') /\
    indentBounds (_editorState e').
Proof.
  apply (@indent_commands_keep_bounds plainModel
           (sampleEditor ParagraphNode 10 "hello" (caretAt 0))
           (mkPoint (GenKey 2) 0 text) (mkPoint (GenKey 2) 0 text) (GenKey 1)
           (sampleBlock ParagraphNode 10) "keyTab" (PKeyboardEvent false)).
  - right; right. exists false. split; [reflexivity|by left].
  - reflexivity.
  - by apply sample_anchorBlock.
  - intros es s. apply plainModel_insertText_bounds.
  - intros es b. apply plainModel_deleteCharacter_bounds.
  - apply sample_indentBounds. lia.
Defined.

Lemma indent_outdent_witness :
  exists e1 e2,
    @dispatch plainModel "indentContent" PUndefined indentedParagraph = Ok (true, e1) /\
    @dispatch plainModel "outdentContent" PUndefined e1 = Ok (true, e2) /\
    _editorState e2 = _editorState indentedParagraph.
Proof.
  destruct (@indent_outdent_round_trip plainModel indentedParagraph
              (mkPoint (GenKey 2) 0 text) (mkPoint (GenKey 2) 0 text) (GenKey 1)
              (sampleBlock ParagraphNode 2) PUndefined PUndefined eq_refl
              (sample_anchorBlock ParagraphNode 2 "hello" 0 eq_refl) eq_refl
              ltac:(simpl; lia))
    as [(e1 & e2 & H1 & H2 & H3) _].
  exists e1, e2. split; [exact H1|]. split; [exact H2|exact H3].
Defined.

Lemma initializeEditor_twice_witness :
  exists e1,
    @initializeEditor plainModel InitUndefined (emptyEditor None true) = Ok (tt, e1) /\
    @initializeEditor plainModel InitUndefined e1 =
      Ok (tt, after (_editorState e1) [EUpdate options_tag] e1).
Proof.
  exact (@initializeEditor_twice plainModel (emptyEditor None true)
           (newNode RootNode) eq_refl eq_refl
           (fun c Hc => False_ind _ (proj1 (elem_of_nil c) Hc))).
Defined.

Lemma fresh_editor_witness :
  exists e1 e2,
    @registerRichText plainModel [] InitUndefined (emptyEditor None true) =
      Ok (@richTextRegistry plainModel, e1) /\
    @dispatch plainModel "keyTab" (PKeyboardEvent false) e1 = Ok (true, e2) /\
    indentOf (_editorState e2) (GenKey 1) = Some 1.
Proof.
  destruct (@fresh_editor_accepts_input plainModel (emptyEditor None true)
              (newNode RootNode) eq_refl eq_refl eq_refl eq_refl)
    as (e1 & Hreg & _ & _ & e2 & Htab & Hindent).
  exists e1, e2. split; [exact Hreg|]. split; [exact Htab|exact Hindent].
Defined.

Lemma convertHeadingElement_witness :
  convertHeadingElement "H3" (emptyEditor None false) =
    Ok (Some (GenKey 1),
        mkEditor
          (mkEditorState
             (<[GenKey 1 := newNode (HeadingNode h3)]>
                (nodes (emptyEditor None false))) None)
          2%N false []) /\
  convertHeadingElement "h6" (emptyEditor None false) =
    Ok (None, emptyEditor None false).
Proof.
  split.
  - exact (proj1 (convertHeadingElement_recognises_h1_to_h5 "H3"
                    (emptyEditor None false)) h3 eq_refl).
  - apply (proj2 (convertHeadingElement_recognises_h1_to_h5 "h6"
                    (emptyEditor None false))).
    intros []; discriminate.
Defined.

Lemma heading_createDOM_witness :
  let theme := mkTheme None (Some (fun tag => Some (String.append "heading-" (tagString tag)))) in
  tagName (HeadingNode_createDOM h3 theme) = "h3" /\
  classList (HeadingNode_createDOM h3 theme) = ["heading-h3"] /\
  exists k e',
    convertHeadingElement "H3" (emptyEditor None false) = Ok (Some k, e') /\
    HeadingNode_getTag <$> nodes e' !! k = Some (Some h3).
Proof.
  exact (heading_createDOM_converts_back h3
           (mkTheme None (Some (fun tag => Some (String.append "heading-" (tagString tag)))))
           "H3" (emptyEditor None false) eq_refl).
Defined.

Lemma convertDOM_witness :
  exists c, ("h2", c) ∈ HeadingNode_convertDOM /\ priority c = 0%nat /\
    exists k e',
      conversion c "h2" (emptyEditor None false) = Ok (Some k, e') /\
      HeadingNode_getTag <$> nodes e' !! k = Some (Some h2).
Proof.
  destruct (convertDOM_levels_match (emptyEditor None false)) as [Hall Heach].
  destruct (Hall h2) as [c Hc]. exists c. split; [exact Hc|].
  destruct (Heach _ c Hc) as (Hprio & tag & k & e' & Htag & Hrun & Hget).
  split; [exact Hprio|]. exists k, e'. split; [exact Hrun|].
  destruct tag; try discriminate Htag. exact Hget.
Defined.

Lemma insertNewAfter_keeps_tree_witness :
  exists newBlock e',
    @QuoteNode_insertNewAfter (GenKey 1) (blockWithTwoChildren QuoteNode) =
      Ok (newBlock, e') /\
    TreeInvariant (nodes e') /\ keysBelowCounter e'.
Proof.
  exact (insertNewAfter_keeps_tree (blockWithTwoChildren QuoteNode) (GenKey 1)
           (mkNode QuoteNode (Some RootKey) [GenKey 2; GenKey 3] EmptyString 0
                   (Some rtl) EmptyString)
           RootKey (blockWithTwoChildren_tree QuoteNode)
           (blockWithTwoChildren_keys QuoteNode) eq_refl eq_refl eq_refl).
Defined.

Lemma collapseAtStart_keeps_tree_witness :
  exists e',
    @HeadingNode_collapseAtStart (GenKey 1) (blockWithTwoChildren (HeadingNode h2)) =
      Ok (true, e') /\
    TreeInvariant (nodes e') /\ keysBelowCounter e'.
Proof.
  exact (collapseAtStart_keeps_tree (blockWithTwoChildren (HeadingNode h2))
           (GenKey 1)
           (mkNode (HeadingNode h2) (Some RootKey) [GenKey 2; GenKey 3]
                   EmptyString 0 (Some rtl) EmptyString)
           RootKey (blockWithTwoChildren_tree (HeadingNode h2))
           (blockWithTwoChildren_keys (HeadingNode h2)) eq_refl eq_refl eq_refl).
Defined.

Lemma listeners_dispatch_only_witness :
  let onlyIndentation : string -> Payload -> M bool := fun t q =>
    if String.eqb t "indentContent" || String.eqb t "outdentContent"
    then @execCommand 3 (@richTextRegistry plainModel) t q
    else throw "not dispatched" in
  keyTabListener (execCommand 3 (@richTextRegistry plainModel))
                 (PKeyboardEvent false) indentedParagraph =
  keyTabListener onlyIndentation (PKeyboardEvent false) indentedParagraph.
Proof.
  eapply (@listeners_dispatch_only plainModel "keyTab"); [registered|].
  intros t q e' Hin. cbn in Hin.
  repeat (apply elem_of_cons in Hin as [Heq|Hin]; [by rewrite Heq|]).
  by apply elem_of_nil in Hin.
Defined.

